(** * browser_rpc: the session pool and the network interceptor

    A shallow embedding of [cdp_client.py] (classes [NetworkInterceptor],
    [BrowserSession] and [BrowserPool]) and the properties its
    specification states about them.

    Python objects are records, a method is a computation in a small
    state-and-exception monad over the object it is called on, and
    everything outside the Python objects (the Playwright engine, the
    clock, the uuid source, the regex engine, the logger) lives in a
    [World].  A method is run to completion once started, with two
    exceptions.  [on_response] is given in two parts, before and after
    its [await response.body()], because Playwright starts one run per
    response and the runs can overlap at that await.  And the state of
    the pool's [asyncio.Lock] is modelled, because [create_session]
    re-enters it. *)

From Stdlib Require Import ZArith Lia.
From stdpp Require Import base option list strings gmap fin_maps.

Set Warnings "-register-all".

(** ** Python values, exceptions and the Playwright calls *)

(** The values the engine hands back.  [VObj h] is a Playwright object
    (browser, context, page, element handle, driver) with identity [h]. *)
Inductive value :=
| VNone
| VBool (b : bool)
| VInt (z : Z)
| VStr (s : string)
| VBytes (bs : list Byte.byte)
| VObj (h : nat)
| VList (vs : list value).

Definition str_truthy (s : string) : bool := negb (String.eqb s "").

(** Python truthiness, as used by [if self.page:], [if element:], ... *)
Definition truthy (v : value) : bool :=
  match v with
  | VNone => false
  | VBool b => b
  | VInt z => negb (Z.eqb z 0)
  | VStr s => str_truthy s
  | VBytes bs => match bs with [] => false | _ => true end
  | VObj _ => true
  | VList vs => match vs with [] => false | _ => true end
  end.

(** Truthiness of an [Optional[str]] argument ([if selector:], [if url:],
    [if self.url_pattern], [if user_agent:]). *)
Definition opt_str_truthy (o : option string) : bool :=
  match o with Some s => str_truthy s | None => false end.

(** The messages of the two [RuntimeError]s the module raises itself. *)
Inductive runtime_msg :=
| SessionNotInitialized            (* cdp_client.py:207 and siblings *)
| SessionLimitReached (max : Z).   (* cdp_client.py:402 *)

(** Exceptions; all of them are subclasses of [Exception]. *)
Inductive exn :=
| RuntimeError (m : runtime_msg)
| ValueError (selector : string)   (* cdp_client.py:293, element not found *)
| ReError (pattern : string)       (* re.error from re.search *)
| EngineError (code : nat).        (* anything Playwright or the OS raises *)

(** The spec's names for the two runtime errors. *)
Definition UninitializedSession : exn := RuntimeError SessionNotInitialized.
Definition PoolExhausted (max : Z) : exn := RuntimeError (SessionLimitReached max).

(** [launch_options] of [initialize] (lines 118-133). *)
Record LaunchOptions := {
  lo_headless : bool;
  lo_args : list string;
  lo_chromium_sandbox : bool }.

(** [context_options] of [initialize] (lines 139-148); the two optional
    keys are present only when the argument was truthy. *)
Record ContextOptions := {
  co_viewport : Z * Z;
  co_bypass_csp : bool;
  co_user_agent : option string;
  co_proxy : option (gmap string string) }.

(** Every call [cdp_client.py] makes on Playwright or on the file system,
    with the receiver first. *)
Inductive CapCall :=
| PlaywrightStart
| ChromiumLaunch (pw : value) (opts : LaunchOptions)
| BrowserNewContext (browser : value) (opts : ContextOptions)
| ContextAddInitScript (ctx : value) (script : value)
| StealthPathExists
| StealthPathReadText
| ContextNewPage (ctx : value)
| StealthAsync (page : value)
| PageEvaluate (page : value) (script : string)
| PageOn (page : value) (event : string)
| PageGoto (page : value) (url : string) (timeout_ms : Z)
| PageUrl (page : value)
| PageContent (page : value)
| PageWaitForSelector (page : value) (selector : string) (timeout_ms : Z)
| PageClick (page : value) (selector : string)
| PageFill (page : value) (selector text : string)
| PageQuerySelector (page : value) (selector : string)
| ElementScreenshot (element : value)
| PageScreenshot (page : value) (full_page : bool)
| ContextSetExtraHTTPHeaders (ctx : value) (headers : gmap string string)
| ContextAddCookies (ctx : value) (cookies : list (gmap string value))
| ContextCookies (ctx : value) (url : option string)
| PageClose (page : value)
| ContextClose (ctx : value)
| BrowserClose (browser : value)
| PlaywrightStop (pw : value).

Inductive CapOutcome :=
| CapOk (v : value)
| CapRaise (e : exn).

(** ** The world outside the Python objects *)

Inductive Level := INFO | WARNING | ERROR.

(** A log record: its level, the source line of the [logger] call and the
    exception it formats, if any. *)
Record LogEntry := {
  log_level : Level;
  log_line : nat;
  log_exc : option exn }.

(** What the program cannot decide itself: how the engine answers a call
    given the calls made so far, what the clock and the uuid generator
    return at their n-th reading, [re.search] ([None] is an invalid
    pattern, [Some b] whether a match was found) and
    [bytes.decode('utf-8', errors='ignore')].  Clock readings are
    integers (ticks) instead of floats. *)
Record Env := {
  engine : list CapCall -> CapCall -> CapOutcome;
  time_source : nat -> Z;
  uuid_source : nat -> string;
  re_search : string -> string -> option bool;
  decode_utf8_ignore : list Byte.byte -> string }.

Record World := {
  env : Env;
  trace : list CapCall;       (* the calls made so far, oldest first *)
  clock_reads : nat;
  uuid_draws : nat;
  log : list LogEntry }.

(** ** The monad of method bodies *)

(** A coroutine returns, raises, or is suspended at the acquire of the
    pool's lock ([Block]); [async_with_lock] says when that wait is
    final. *)
Inductive Outcome (A : Type) :=
| Ret (a : A)
| Raise (e : exn)
| Block.
Arguments Ret {A} a.
Arguments Raise {A} e.
Arguments Block {A}.

Definition M (S A : Type) : Type := S -> World -> Outcome A * S * World.

Definition outcome_of {S A} (r : Outcome A * S * World) : Outcome A := r.1.1.
Definition state_of {S A} (r : Outcome A * S * World) : S := r.1.2.
Definition world_of {S A} (r : Outcome A * S * World) : World := r.2.

#[export] Instance M_ret {S} : MRet (M S) := fun A a s w => (Ret a, s, w).

#[export] Instance M_bind {S} : MBind (M S) := fun A B f m s w =>
  match m s w with
  | (Ret a, s', w') => f a s' w'
  | (Raise e, s', w') => (Raise e, s', w')
  | (Block, s', w') => (Block, s', w')
  end.

Definition raise {S A} (e : exn) : M S A := fun s w => (Raise e, s, w).
Definition block {S A} : M S A := fun s w => (Block, s, w).
Definition get {S} : M S S := fun s w => (Ret s, s, w).
Definition put {S} (s : S) : M S unit := fun _ w => (Ret tt, s, w).
Definition modify {S} (f : S -> S) : M S unit := fun s w => (Ret tt, f s, w).

(** [try: m except Exception as e: h e] *)
Definition try_except {S A} (m : M S A) (h : exn -> M S A) : M S A := fun s w =>
  match m s w with
  | (Raise e, s', w') => h e s' w'
  | r => r
  end.

(** Runs a method of another object [obj]; hands back how it ended and
    the object as the method left it. *)
Definition run_on {S T A} (obj : T) (m : M T A) : M S (Outcome A * T) := fun s w =>
  match m obj w with
  | (r, obj', w') => (Ret (r, obj'), s, w')
  end.

(** [for x in xs: body x] *)
Fixpoint for_each {S X} (xs : list X) (body : X -> M S unit) : M S unit :=
  match xs with
  | [] => mret tt
  | x :: rest => body x ≫= fun _ => for_each rest body
  end.

Definition with_trace (t : list CapCall) (w : World) : World :=
  {| env := env w; trace := t; clock_reads := clock_reads w;
     uuid_draws := uuid_draws w; log := log w |}.

Definition with_log (l : list LogEntry) (w : World) : World :=
  {| env := env w; trace := trace w; clock_reads := clock_reads w;
     uuid_draws := uuid_draws w; log := l |}.

(** [await <Playwright call>]: the call is made (it enters the trace) and
    the engine answers. *)
Definition call {S} (c : CapCall) : M S value := fun s w =>
  let w' := with_trace (trace w ++ [c]) w in
  match engine (env w) (trace w) c with
  | CapOk v => (Ret v, s, w')
  | CapRaise e => (Raise e, s, w')
  end.

(** [time.time()] *)
Definition time_time {S} : M S Z := fun s w =>
  (Ret (time_source (env w) (clock_reads w)), s,
   {| env := env w; trace := trace w; clock_reads := Datatypes.S (clock_reads w);
      uuid_draws := uuid_draws w; log := log w |}).

(** [str(uuid.uuid4())] *)
Definition uuid4_str {S} : M S string := fun s w =>
  (Ret (uuid_source (env w) (uuid_draws w)), s,
   {| env := env w; trace := trace w; clock_reads := clock_reads w;
      uuid_draws := Datatypes.S (uuid_draws w); log := log w |}).

(** [logger.info / warning / error] at source line [line]. *)
Definition logger {S} (lvl : Level) (line : nat) (exc : option exn) : M S unit :=
  fun s w =>
    (Ret tt, s,
     with_log (log w ++ [{| log_level := lvl; log_line := line; log_exc := exc |}]) w).

(** [re.search(pattern, url)], as a truth value. *)
Definition re_search_m {S} (pattern url : string) : M S bool := fun s w =>
  match re_search (env w) pattern url with
  | Some b => (Ret b, s, w)
  | None => (Raise (ReError pattern), s, w)
  end.

(** ** NetworkInterceptor (cdp_client.py:24-88) *)

(** The dict stored in [req['response']] (lines 70-74 and 77-81). *)
Record ResponseData := {
  resp_status_code : Z;
  resp_headers : gmap string string;
  resp_body : option string }.

(** The dict appended to [self.requests] (lines 45-53). *)
Record InterceptedRequest := {
  req_request_id : string;
  req_url : string;
  req_method : string;
  req_headers : gmap string string;
  req_post_data : option string;
  req_timestamp : Z;
  req_response : option ResponseData }.

(** Playwright's [Request] object, as far as [on_request] reads it. *)
Record RequestEvent := {
  ev_url : string;
  ev_method : string;
  ev_headers : gmap string string;
  ev_post_data : option string }.

(** Playwright's [Response] object; [rv_body] is how [await
    response.body()] ends: the bytes, or the exception it raises. *)
Record ResponseEvent := {
  rv_url : string;
  rv_status : Z;
  rv_headers : gmap string string;
  rv_body : list Byte.byte + exn }.

Record NetworkInterceptor := {
  requests : list InterceptedRequest;
  url_pattern : option string }.

(** [NetworkInterceptor.__init__] *)
Definition NetworkInterceptor_init : NetworkInterceptor :=
  {| requests := []; url_pattern := None |}.

Definition set_url_pattern (pattern : string) : M NetworkInterceptor unit :=
  modify (fun self => {| requests := requests self; url_pattern := Some pattern |}).

Definition clear : M NetworkInterceptor unit :=
  modify (fun self => {| requests := []; url_pattern := url_pattern self |}).

(** [self.url_pattern and not re.search(self.url_pattern, url)]: the event
    is to be dropped. *)
Definition filtered_out {S} (pattern : option string) (url : string) : M S bool :=
  match pattern with
  | Some p =>
      if str_truthy p then found ← re_search_m p url; mret (negb found)
      else mret false
  | None => mret false
  end.

Definition on_request (request : RequestEvent) : M NetworkInterceptor unit :=
  try_except
    (self ← get;
     drop ← filtered_out (url_pattern self) (ev_url request);
     if drop : bool then mret tt else
     request_id ← uuid4_str;
     timestamp ← time_time;
     let request_data :=
       {| req_request_id := request_id;
          req_url := ev_url request;
          req_method := ev_method request;
          req_headers := ev_headers request;
          req_post_data :=
            if String.eqb (ev_method request) "POST"
            then ev_post_data request else None;
          req_timestamp := timestamp;
          req_response := None |} in
     modify (fun self =>
       {| requests := requests self ++ [request_data];
          url_pattern := url_pattern self |}))
    (fun e => logger ERROR 57 (Some e)).

Definition set_response (r : option ResponseData) (req : InterceptedRequest)
  : InterceptedRequest :=
  {| req_request_id := req_request_id req; req_url := req_url req;
     req_method := req_method req; req_headers := req_headers req;
     req_post_data := req_post_data req; req_timestamp := req_timestamp req;
     req_response := r |}.

(** [await response.body()] *)
Definition await_body {S} (response : ResponseEvent) : M S (list Byte.byte) :=
  match rv_body response with
  | inl bs => mret bs
  | inr e => raise e
  end.

(** Lines 68-81: the dict written into the matched request. *)
Definition response_dict {S} (response : ResponseEvent) : M S ResponseData :=
  try_except
    (body ← await_body response;
     decode ← (fun s w => (Ret (decode_utf8_ignore (env w)), s, w)) : M S _;
     mret {| resp_status_code := rv_status response;
             resp_headers := rv_headers response;
             resp_body := Some (decode body) |})
    (fun e =>
       logger WARNING 76 (Some e);;
       mret {| resp_status_code := rv_status response;
               resp_headers := rv_headers response;
               resp_body := None |}).

(** [req['url'] == response.url and req['response'] is None] *)
Definition awaits_response (url : string) (req : InterceptedRequest) : bool :=
  String.eqb (req_url req) url &&
  match req_response req with None => true | Some _ => false end.

(** The scan of lines 66-67 over [self.requests]: the position of the
    first request that awaits a response from [url]. *)
Fixpoint first_awaiting (url : string) (reqs : list InterceptedRequest) : option nat :=
  match reqs with
  | [] => None
  | req :: rest =>
      if awaits_response url req then Some 0
      else Datatypes.S <$> first_awaiting url rest
  end.

(** [on_response] up to [await response.body()] (lines 62-67): the filter
    and the scan.  The run is suspended at the await holding the record
    it picked; the record is named by its position, which is its identity
    as long as the store is not cleared. *)
Definition on_response_pick (response : ResponseEvent)
  : M NetworkInterceptor (option nat) :=
  self ← get;
  drop ← filtered_out (url_pattern self) (rv_url response);
  if drop : bool then mret None
  else mret (first_awaiting (rv_url response) (requests self)).

(** [on_response] from the await on (lines 69-82): the dict is built and
    written into the record picked, whatever its slot holds by then; the
    slot is not tested again. *)
Definition on_response_store (response : ResponseEvent) (i : nat)
  : M NetworkInterceptor unit :=
  d ← response_dict response;
  modify (fun self =>
    {| requests := alter (set_response (Some d)) i (requests self);
       url_pattern := url_pattern self |}).

(** A run of [on_response] that no other callback interleaves with: the
    two parts one after the other.  Playwright starts one run per
    response event; two runs overlap when the second picks before the
    first has stored. *)
Definition on_response (response : ResponseEvent) : M NetworkInterceptor unit :=
  try_except
    (picked ← on_response_pick response;
     match picked with
     | Some i => on_response_store response i
     | None => mret tt
     end)
    (fun e => logger ERROR 84 (Some e)).

(** [req.get('response')] as a truth value: the stored dict always has
    three keys, so it is truthy whenever it is there. *)
Definition response_truthy (r : option ResponseData) : bool :=
  match r with Some _ => true | None => false end.

Definition get_requests (self : NetworkInterceptor) : list InterceptedRequest :=
  List.filter (fun req => response_truthy (req_response req)) (requests self).

(** ** BrowserSession (cdp_client.py:91-375) *)

Record BrowserSession := {
  session_id : string;
  browser : value;
  context : value;
  page : value;
  playwright : value;
  network_interceptor : NetworkInterceptor;
  custom_headers : gmap string string;
  created_at : Z;
  last_activity : Z }.

Definition set_browser (v : value) (self : BrowserSession) : BrowserSession :=
  {| session_id := session_id self; browser := v; context := context self;
     page := page self; playwright := playwright self;
     network_interceptor := network_interceptor self;
     custom_headers := custom_headers self; created_at := created_at self;
     last_activity := last_activity self |}.

Definition set_context (v : value) (self : BrowserSession) : BrowserSession :=
  {| session_id := session_id self; browser := browser self; context := v;
     page := page self; playwright := playwright self;
     network_interceptor := network_interceptor self;
     custom_headers := custom_headers self; created_at := created_at self;
     last_activity := last_activity self |}.

Definition set_page (v : value) (self : BrowserSession) : BrowserSession :=
  {| session_id := session_id self; browser := browser self;
     context := context self; page := v; playwright := playwright self;
     network_interceptor := network_interceptor self;
     custom_headers := custom_headers self; created_at := created_at self;
     last_activity := last_activity self |}.

Definition set_playwright (v : value) (self : BrowserSession) : BrowserSession :=
  {| session_id := session_id self; browser := browser self;
     context := context self; page := page self; playwright := v;
     network_interceptor := network_interceptor self;
     custom_headers := custom_headers self; created_at := created_at self;
     last_activity := last_activity self |}.

Definition set_network_interceptor (n : NetworkInterceptor) (self : BrowserSession)
  : BrowserSession :=
  {| session_id := session_id self; browser := browser self;
     context := context self; page := page self; playwright := playwright self;
     network_interceptor := n;
     custom_headers := custom_headers self; created_at := created_at self;
     last_activity := last_activity self |}.

Definition set_custom_headers (h : gmap string string) (self : BrowserSession)
  : BrowserSession :=
  {| session_id := session_id self; browser := browser self;
     context := context self; page := page self; playwright := playwright self;
     network_interceptor := network_interceptor self;
     custom_headers := h; created_at := created_at self;
     last_activity := last_activity self |}.

Definition set_last_activity (t : Z) (self : BrowserSession) : BrowserSession :=
  {| session_id := session_id self; browser := browser self;
     context := context self; page := page self; playwright := playwright self;
     network_interceptor := network_interceptor self;
     custom_headers := custom_headers self; created_at := created_at self;
     last_activity := t |}.

(** [BrowserSession(session_id)]: the constructor reads the clock twice. *)
Definition BrowserSession_init {S} (sid : string) : M S BrowserSession :=
  created ← time_time;
  active ← time_time;
  mret {| session_id := sid; browser := VNone; context := VNone; page := VNone;
          playwright := VNone; network_interceptor := NetworkInterceptor_init;
          custom_headers := ∅; created_at := created; last_activity := active |}.

(** [self.last_activity = time.time()] *)
Definition touch : M BrowserSession unit :=
  now ← time_time;
  modify (set_last_activity now).

(** A method of [self.network_interceptor] called from the session. *)
Definition on_interceptor {A} (m : M NetworkInterceptor A) : M BrowserSession A :=
  fun self w =>
    match m (network_interceptor self) w with
    | (r, n, w') => (r, set_network_interceptor n self, w')
    end.

Definition close : M BrowserSession unit :=
  try_except
    (self ← get;
     (if truthy (page self) then
        call (PageClose (page self));; modify (set_page VNone)
      else mret tt);;
     self ← get;
     (if truthy (context self) then
        call (ContextClose (context self));; modify (set_context VNone)
      else mret tt);;
     self ← get;
     (if truthy (browser self) then
        call (BrowserClose (browser self));; modify (set_browser VNone)
      else mret tt);;
     self ← get;
     (if truthy (playwright self) then
        call (PlaywrightStop (playwright self));; modify (set_playwright VNone)
      else mret tt);;
     logger INFO 373 None)
    (fun e => logger ERROR 375 (Some e)).

(** The constant argument list of lines 120-131. *)
Definition launch_args : list string :=
  [ "--no-sandbox"; "--disable-setuid-sandbox";
    "--disable-blink-features=AutomationControlled";
    "--disable-dev-shm-usage"; "--disable-web-security";
    "--disable-features=IsolateOrigins,site-per-process";
    "--disable-infobars"; "--window-position=0,0";
    "--ignore-certifcate-errors"; "--ignore-certifcate-errors-spki-list" ].

(** The script of lines 154-160 (its line breaks and indentation left out). *)
Definition webdriver_patch_js : string :=
  "Object.defineProperty(Navigator.prototype, 'webdriver', { get: () => undefined, configurable: true }); delete Navigator.prototype.webdriver;".

(** The script of lines 182-188 (its line breaks and indentation left out). *)
Definition webdriver_probe_js : string :=
  "() => ({ webdriver: navigator.webdriver, has: 'webdriver' in navigator, protoHas: Object.getPrototypeOf(navigator).hasOwnProperty('webdriver') })".

Definition proxy_truthy (proxy : option (gmap string string)) : bool :=
  match proxy with Some d => negb (bool_decide (d = ∅)) | None => false end.

Definition initialize (headless : bool) (user_agent : option string)
    (proxy : option (gmap string string)) (width height : Z)
  : M BrowserSession bool :=
  try_except
    (pw ← call PlaywrightStart;
     modify (set_playwright pw);;
     let launch_options :=
       {| lo_headless := headless; lo_args := launch_args;
          lo_chromium_sandbox := false |} in
     self ← get;
     b ← call (ChromiumLaunch (playwright self) launch_options);
     modify (set_browser b);;
     let context_options :=
       {| co_viewport := (width, height); co_bypass_csp := true;
          co_user_agent := if opt_str_truthy user_agent then user_agent else None;
          co_proxy := if proxy_truthy proxy then proxy else None |} in
     self ← get;
     c ← call (BrowserNewContext (browser self) context_options);
     modify (set_context c);;
     self ← get;
     call (ContextAddInitScript (context self) (VStr webdriver_patch_js));;
     present ← call StealthPathExists;
     (if truthy present then
        try_except
          (logger INFO 166 None;;
           stealth_js ← call StealthPathReadText;
           self ← get;
           call (ContextAddInitScript (context self) stealth_js);;
           logger INFO 169 None)
          (fun e => logger WARNING 171 (Some e))
      else logger WARNING 173 None);;
     self ← get;
     p ← call (ContextNewPage (context self));
     modify (set_page p);;
     self ← get;
     call (StealthAsync (page self));;
     info ← call (PageEvaluate (page self) webdriver_probe_js);
     logger INFO 189 None;;
     call (PageOn (page self) "request");;
     call (PageOn (page self) "response");;
     touch;;
     logger INFO 196 None;;
     mret true)
    (fun e =>
       logger ERROR 200 (Some e);;
       close;;
       raise e).

Definition navigate (url : string) (timeout : Z) : M BrowserSession value :=
  self ← get;
  if negb (truthy (page self)) then raise (RuntimeError SessionNotInitialized) else
  try_except
    (response ← call (PageGoto (page self) url (timeout * 1000));
     touch;;
     call (PageUrl (page self)))
    (fun e => logger ERROR 214 (Some e);; raise e).

Definition execute_script (script : string) : M BrowserSession value :=
  self ← get;
  if negb (truthy (page self)) then raise (RuntimeError SessionNotInitialized) else
  try_except
    (result ← call (PageEvaluate (page self) script);
     touch;;
     mret result)
    (fun e => logger ERROR 227 (Some e);; raise e).

Definition get_content : M BrowserSession value :=
  self ← get;
  if negb (truthy (page self)) then raise (RuntimeError SessionNotInitialized) else
  try_except
    (content ← call (PageContent (page self));
     touch;;
     mret content)
    (fun e => logger ERROR 240 (Some e);; raise e).

Definition wait_for_selector (selector : string) (timeout : Z)
  : M BrowserSession bool :=
  self ← get;
  if negb (truthy (page self)) then raise (RuntimeError SessionNotInitialized) else
  try_except
    (call (PageWaitForSelector (page self) selector (timeout * 1000));;
     touch;;
     mret true)
    (fun e => logger ERROR 253 (Some e);; raise e).

Definition click (selector : string) : M BrowserSession bool :=
  self ← get;
  if negb (truthy (page self)) then raise (RuntimeError SessionNotInitialized) else
  try_except
    (call (PageClick (page self) selector);;
     touch;;
     mret true)
    (fun e => logger ERROR 266 (Some e);; raise e).

Definition type_text (selector text : string) : M BrowserSession bool :=
  self ← get;
  if negb (truthy (page self)) then raise (RuntimeError SessionNotInitialized) else
  try_except
    (call (PageFill (page self) selector text);;
     touch;;
     mret true)
    (fun e => logger ERROR 279 (Some e);; raise e).

Definition screenshot (selector : option string) (full_page : bool)
  : M BrowserSession value :=
  self ← get;
  if negb (truthy (page self)) then raise (RuntimeError SessionNotInitialized) else
  try_except
    (screenshot_bytes ←
       (if opt_str_truthy selector then
          element ← call (PageQuerySelector (page self) (default "" selector));
          if truthy element then call (ElementScreenshot element)
          else raise (ValueError (default "" selector))
        else call (PageScreenshot (page self) full_page));
     touch;;
     mret screenshot_bytes)
    (fun e => logger ERROR 300 (Some e);; raise e).

Definition set_extra_headers (headers : gmap string string) : M BrowserSession unit :=
  self ← get;
  if negb (truthy (context self)) then raise (RuntimeError SessionNotInitialized) else
  try_except
    ((* self.custom_headers.update(headers) *)
     modify (fun self => set_custom_headers (headers ∪ custom_headers self) self);;
     self ← get;
     call (ContextSetExtraHTTPHeaders (context self) (custom_headers self));;
     touch)
    (fun e => logger ERROR 313 (Some e);; raise e).

Definition set_cookies (cookies : list (gmap string value)) : M BrowserSession unit :=
  self ← get;
  if negb (truthy (context self)) then raise (RuntimeError SessionNotInitialized) else
  try_except
    (call (ContextAddCookies (context self) cookies);;
     touch)
    (fun e => logger ERROR 325 (Some e);; raise e).

Definition get_cookies (url : option string) : M BrowserSession value :=
  self ← get;
  if negb (truthy (context self)) then raise (RuntimeError SessionNotInitialized) else
  try_except
    (cookies ←
       (if opt_str_truthy url then call (ContextCookies (context self) url)
        else call (ContextCookies (context self) None));
     touch;;
     mret cookies)
    (fun e => logger ERROR 341 (Some e);; raise e).

Definition get_network_requests (pattern : option string)
  : M BrowserSession (list InterceptedRequest) :=
  (if opt_str_truthy pattern
   then on_interceptor (set_url_pattern (default "" pattern))
   else mret tt);;
  self ← get;
  mret (get_requests (network_interceptor self)).

Definition clear_network_requests : M BrowserSession unit :=
  on_interceptor clear.

(** ** BrowserPool (cdp_client.py:378-451) *)

(** [sessions] is the dict of live sessions; [_lock] is the state of the
    pool's [asyncio.Lock]: [true] while some coroutine holds it. *)
Record BrowserPool := {
  sessions : gmap string BrowserSession;
  max_sessions : Z;
  session_timeout : Z;
  _lock : bool }.

(** [BrowserPool(max_sessions, session_timeout)] *)
Definition BrowserPool_init (max timeout : Z) : BrowserPool :=
  {| sessions := ∅; max_sessions := max; session_timeout := timeout;
     _lock := false |}.

Definition set_sessions (m : gmap string BrowserSession) (self : BrowserPool)
  : BrowserPool :=
  {| sessions := m; max_sessions := max_sessions self;
     session_timeout := session_timeout self; _lock := _lock self |}.

Definition set_lock (b : bool) (self : BrowserPool) : BrowserPool :=
  {| sessions := sessions self; max_sessions := max_sessions self;
     session_timeout := session_timeout self; _lock := b |}.

(** [async with self._lock: body].  With the lock free the body runs
    holding it, and the lock is released when the body returns or
    raises.  With the lock held the caller is suspended at the acquire,
    which is all [Block] records: [asyncio.Lock] resumes the caller once
    the holder releases the lock, and whether the holder does is not
    part of the model.  The case the model decides is the holder
    acquiring again inside its own body: [asyncio.Lock] is not
    reentrant, the holder waits for a release only it could make, and
    [Block] is final, for the holder and for whoever asks for the lock
    after it.  The statements below that conclude [Block] are about that
    case only; the others assume the lock free at the call. *)
Definition async_with_lock {A} (body : M BrowserPool A) : M BrowserPool A :=
  fun self w =>
    if _lock self then (Block, self, w)
    else
      match body (set_lock true self) w with
      | (Block, self', w') => (Block, self', w')
      | (r, self', w') => (r, set_lock false self', w')
      end.

(** [await obj.method()] on an object the pool no longer refers to. *)
Definition call_on {S T A} (obj : T) (m : M T A) : M S A := fun s w =>
  match m obj w with
  | (r, _, w') => (r, s, w')
  end.

Definition get_session (sid : string) (self : BrowserPool) : option BrowserSession :=
  sessions self !! sid.

Definition close_session (sid : string) : M BrowserPool bool :=
  async_with_lock
    (self ← get;
     (* session = self.sessions.pop(session_id, None) *)
     let session := sessions self !! sid in
     modify (set_sessions (delete sid (sessions self)));;
     match session with
     | Some session =>
         call_on session close;;
         logger INFO 428 None;;
         mret true
     | None => mret false
     end).

(** [current_time - session.last_activity > self.session_timeout] *)
Definition is_expired (current_time timeout : Z) (session : BrowserSession) : bool :=
  (current_time - last_activity session >? timeout)%Z.

(** The two loops of lines 437-443.  Python walks [self.sessions] in
    insertion order, which a [gmap] does not record; the model walks it
    in the order of [map_to_list].  The set of ids collected, and with
    the lock free the set of sessions evicted, are the same for every
    order; the order of the eviction calls among themselves is not, and
    no statement below speaks of it. *)
Definition _cleanup_expired_sessions : M BrowserPool unit :=
  current_time ← time_time;
  self ← get;
  let expired_sessions :=
    (List.filter (fun item => is_expired current_time (session_timeout self) item.2)
                 (map_to_list (sessions self))).*1 in
  for_each expired_sessions (fun sid =>
    close_session sid;;
    logger INFO 443 None).

Definition create_session (headless : bool) (user_agent : option string)
    (proxy : option (gmap string string)) (width height : Z)
  : M BrowserPool string :=
  async_with_lock
    (_cleanup_expired_sessions;;
     self ← get;
     if (Z.of_nat (size (sessions self)) >=? max_sessions self)%Z
     then raise (RuntimeError (SessionLimitReached (max_sessions self)))
     else
       sid ← uuid4_str;
       session ← BrowserSession_init sid;
       attempt ← run_on session (initialize headless user_agent proxy width height);
       match attempt with
       | (Ret _, session) =>
           modify (fun self => set_sessions (<[sid := session]> (sessions self)) self);;
           logger INFO 411 None;;
           mret sid
       | (Raise e, session) =>
           logger ERROR 414 (Some e);;
           call_on session close;;
           raise e
       | (Block, _) => block
       end).


(** ** Reading the model *)

(** The filter of [on_request] and [on_response] lets [url] through: no
    pattern is set (or it is the empty string), or [re.search] finds a
    match. *)
Definition passes_filter (w : World) (pattern : option string) (url : string) : Prop :=
  opt_str_truthy pattern = false ∨
  re_search (env w) (default "" pattern) url = Some true.

(** A request record that [on_response] would fill for [url]. *)
Definition unanswered (url : string) (req : InterceptedRequest) : Prop :=
  req_url req = url ∧ req_response req = None.

(** What [on_response] writes for [response]: status and headers always,
    the decoded body unless fetching it raised. *)
Definition recorded_response (w : World) (response : ResponseEvent) : ResponseData :=
  {| resp_status_code := rv_status response;
     resp_headers := rv_headers response;
     resp_body :=
       match rv_body response with
       | inl bs => Some (decode_utf8_ignore (env w) bs)
       | inr _ => None
       end |}.

(** The release calls [close] has to make for a session, in source order:
    one for every handle that is set. *)
Definition release_plan (self : BrowserSession) : list CapCall :=
  (if truthy (page self) then [PageClose (page self)] else []) ++
  (if truthy (context self) then [ContextClose (context self)] else []) ++
  (if truthy (browser self) then [BrowserClose (browser self)] else []) ++
  (if truthy (playwright self) then [PlaywrightStop (playwright self)] else []).

(** Every call of [calls], made in this order after the calls [hist],
    is accepted by the engine of [e]. *)
Fixpoint plan_succeeds (e : Env) (hist : list CapCall) (calls : list CapCall) : Prop :=
  match calls with
  | [] => True
  | c :: rest => (∃ v, engine e hist c = CapOk v) ∧ plan_succeeds e (hist ++ [c]) rest
  end.

(** Every failure of the engine during a run of [m] ends the run with
    that failure: whenever a call that [m] made was refused by the
    engine, it is the last call [m] made and [m] raises what the engine
    raised. *)
Definition propagates_engine_failures {A} (m : M BrowserSession A) : Prop :=
  ∀ self w made c rest e,
    trace (world_of (m self w)) = trace w ++ made ++ c :: rest →
    engine (env w) (trace w ++ made) c = CapRaise e →
    outcome_of (m self w) = Raise e ∧ rest = [].

(** The pool holds no more sessions than [max_sessions]. *)
Definition pool_bounded (self : BrowserPool) : Prop :=
  (Z.of_nat (size (sessions self)) <= max_sessions self)%Z.

(** The operations a transport adapter performs on a pool: the two pool
    methods, and any method of a session obtained from [get_session],
    which leaves the session object in some new state. *)
Inductive PoolOp :=
| OpCreate (headless : bool) (user_agent : option string)
    (proxy : option (gmap string string)) (width height : Z)
| OpClose (sid : string)
| OpSession (sid : string) (after : BrowserSession).

(** One operation, made when the outside world is [w]. *)
Definition apply_op (op : PoolOp) (w : World) (self : BrowserPool) : BrowserPool :=
  match op with
  | OpCreate headless user_agent proxy width height =>
      state_of (create_session headless user_agent proxy width height self w)
  | OpClose sid => state_of (close_session sid self w)
  | OpSession sid after =>
      set_sessions (alter (fun _ => after) sid (sessions self)) self
  end.

Fixpoint run_ops (ops : list (PoolOp * World)) (self : BrowserPool) : BrowserPool :=
  match ops with
  | [] => self
  | (op, w) :: rest => run_ops rest (apply_op op w self)
  end.

(** The world after lines 68-81: a failed body fetch leaves a warning. *)
Definition world_after_body (w : World) (response : ResponseEvent) : World :=
  match rv_body response with
  | inl _ => w
  | inr e =>
      with_log (log w ++ [{| log_level := WARNING; log_line := 76;
                             log_exc := Some e |}]) w
  end.

(** The ids [_cleanup_expired_sessions] collects at clock reading [now]. *)
Definition expired_ids (now : Z) (self : BrowserPool) : list string :=
  (List.filter (fun item => is_expired now (session_timeout self) item.2)
               (map_to_list (sessions self))).*1.

Definition after_clock_read (w : World) : World :=
  {| env := env w; trace := trace w; clock_reads := Datatypes.S (clock_reads w);
     uuid_draws := uuid_draws w; log := log w |}.

(** The world in which [create_session] starts [initialize]: the sweep
    has read the clock, a uuid was drawn, the constructor read the clock
    twice. *)
Definition world_at_initialize (w : World) : World :=
  {| env := env w; trace := trace w;
     clock_reads := Datatypes.S (Datatypes.S (Datatypes.S (clock_reads w)));
     uuid_draws := Datatypes.S (uuid_draws w); log := log w |}.

Definition new_session (w : World) : BrowserSession :=
  {| session_id := uuid_source (env w) (uuid_draws w);
     browser := VNone; context := VNone; page := VNone; playwright := VNone;
     network_interceptor := NetworkInterceptor_init; custom_headers := ∅;
     created_at := time_source (env w) (Datatypes.S (clock_reads w));
     last_activity := time_source (env w) (Datatypes.S (Datatypes.S (clock_reads w))) |}.

(** ** Sample worlds and objects *)

(** A stand-in for [re.search] that is right on patterns without
    metacharacters (substring search) and on the invalid pattern "(". *)
Definition literal_search (pattern url : string) : option bool :=
  if String.eqb pattern "(" then None
  else Some (match String.index 0 pattern url with Some _ => true | None => false end).

(** An engine on which every call succeeds; the stealth script is absent. *)
Definition obliging_engine (hist : list CapCall) (c : CapCall) : CapOutcome :=
  match c with
  | StealthPathExists => CapOk (VBool false)
  | PageUrl _ => CapOk (VStr "about:blank")
  | _ => CapOk (VObj (Datatypes.S (length hist)))
  end.

(** An engine on which closing a page fails. *)
Definition page_close_fails (hist : list CapCall) (c : CapCall) : CapOutcome :=
  match c with
  | PageClose _ => CapRaise (EngineError 1)
  | _ => obliging_engine hist c
  end.

(** An engine on which closing a context fails. *)
Definition context_close_fails (hist : list CapCall) (c : CapCall) : CapOutcome :=
  match c with
  | ContextClose _ => CapRaise (EngineError 2)
  | _ => obliging_engine hist c
  end.

(** An engine on which every call fails. *)
Definition failing_engine (hist : list CapCall) (c : CapCall) : CapOutcome :=
  CapRaise (EngineError 7).

Definition sample_env (eng : list CapCall -> CapCall -> CapOutcome) (now : Z) : Env :=
  {| engine := eng;
     time_source := fun _ => now;
     uuid_source := fun n => String (Ascii.ascii_of_nat (97 + n)) "";
     re_search := literal_search;
     decode_utf8_ignore := String.string_of_list_byte |}.

Definition sample_world (eng : list CapCall -> CapCall -> CapOutcome) (now : Z) : World :=
  {| env := sample_env eng now; trace := []; clock_reads := 0; uuid_draws := 0;
     log := [] |}.

Definition fresh_session : BrowserSession :=
  {| session_id := "s"; browser := VNone; context := VNone; page := VNone;
     playwright := VNone; network_interceptor := NetworkInterceptor_init;
     custom_headers := ∅; created_at := 0; last_activity := 0 |}.

(** A session as [initialize] leaves it, last active at time 0. *)
Definition live_session : BrowserSession :=
  {| session_id := "s"; browser := VObj 2; context := VObj 3; page := VObj 4;
     playwright := VObj 1; network_interceptor := NetworkInterceptor_init;
     custom_headers := ∅; created_at := 0; last_activity := 0 |}.

(** A pool of capacity one holding [live_session]. *)
Definition full_pool : BrowserPool :=
  {| sessions := {[ "s" := live_session ]}; max_sessions := 1;
     session_timeout := 3600; _lock := false |}.

Definition sample_request (url method : string) (post_data : option string)
  : RequestEvent :=
  {| ev_url := url; ev_method := method; ev_headers := ∅;
     ev_post_data := post_data |}.

Definition pending (id url : string) : InterceptedRequest :=
  {| req_request_id := id; req_url := url; req_method := "GET";
     req_headers := ∅; req_post_data := None; req_timestamp := 0;
     req_response := None |}.

Definition sample_response (url : string) (status : Z) (body : list Byte.byte + exn)
  : ResponseEvent :=
  {| rv_url := url; rv_status := status; rv_headers := ∅; rv_body := body |}.

(** ** Event sequences on an interceptor *)

(** What the event loop runs on an interceptor through the two callbacks
    registered by [initialize]: a run of [on_request], which has no await
    inside; a run of [on_response] that nothing interleaves with; and the
    second half of a run of [on_response] that was suspended at [await
    response.body()] after picking the record at position [i], resumed
    after any number of other steps.  The first half of such a run
    changes nothing in the interceptor.  The store is not cleared by a
    callback, so a position names the same record throughout. *)
Inductive InterceptorEvent :=
| Requested (request : RequestEvent)
| Responded (response : ResponseEvent)
| Resumed (response : ResponseEvent) (i : nat).

Definition observe (ev : InterceptorEvent) : M NetworkInterceptor unit :=
  match ev with
  | Requested request => on_request request
  | Responded response => on_response response
  | Resumed response i => on_response_store response i
  end.

(** The step is a whole run of a callback: no run of [on_response] is
    resumed after other steps. *)
Definition is_whole_run (ev : InterceptorEvent) : bool :=
  match ev with
  | Requested _ | Responded _ => true
  | Resumed _ _ => false
  end.

(** A run of callbacks, each made when the outside world is the one
    paired with it. *)
Fixpoint observe_all (evs : list (InterceptorEvent * World))
    (self : NetworkInterceptor) : NetworkInterceptor :=
  match evs with
  | [] => self
  | (ev, w) :: rest => observe_all rest (state_of (observe ev self w))
  end.

(** [b] is the record [a] at a later time: the request side is the same
    and a response, once stored, is still the one stored. *)
Definition later_record (a b : InterceptedRequest) : Prop :=
  req_request_id b = req_request_id a
  ∧ req_url b = req_url a
  ∧ req_method b = req_method a
  ∧ req_headers b = req_headers a
  ∧ req_post_data b = req_post_data a
  ∧ req_timestamp b = req_timestamp a
  ∧ (∀ d, req_response a = Some d → req_response b = Some d).

(** [new] is the store [old] at a later time: the old records in the
    same positions, followed by the records appended since. *)
Definition later_store (old new : list InterceptedRequest) : Prop :=
  ∃ kept added, new = kept ++ added ∧ Forall2 later_record old kept.

(** [b] is the record [a] after any steps of the callbacks: the request
    side is the same, and a slot that held a response still holds one,
    not necessarily the same. *)
Definition same_request (a b : InterceptedRequest) : Prop :=
  req_request_id b = req_request_id a
  ∧ req_url b = req_url a
  ∧ req_method b = req_method a
  ∧ req_headers b = req_headers a
  ∧ req_post_data b = req_post_data a
  ∧ req_timestamp b = req_timestamp a
  ∧ (req_response b = None → req_response a = None).

(** The old records in the same positions, each with the same request
    side, followed by the records appended since. *)
Definition grown_store (old new : list InterceptedRequest) : Prop :=
  ∃ kept added, new = kept ++ added ∧ Forall2 same_request old kept.

(** ** Frames for session operations *)

(** [b] is the session [a] with at most [last_activity] and
    [custom_headers] changed: same id, same four handles, same
    interceptor, same creation time. *)
Definition same_resources (a b : BrowserSession) : Prop :=
  session_id b = session_id a
  ∧ browser b = browser a
  ∧ context b = context a
  ∧ page b = page a
  ∧ playwright b = playwright a
  ∧ network_interceptor b = network_interceptor a
  ∧ created_at b = created_at a.

(** The reading [time.time()] returns in world [w]. *)
Definition clock_now (w : World) : Z := time_source (env w) (clock_reads w).

(** An engine on which every call succeeds but no selector matches. *)
Definition no_element_engine (hist : list CapCall) (c : CapCall) : CapOutcome :=
  match c with
  | PageQuerySelector _ _ => CapOk VNone
  | _ => obliging_engine hist c
  end.

(** The four calls [close] makes. *)
Definition is_release (c : CapCall) : bool :=
  match c with
  | PageClose _ | ContextClose _ | BrowserClose _ | PlaywrightStop _ => true
  | _ => false
  end.

(** The call that releases the handle [v] which the engine handed out in
    answer to [c]: the four calls of [initialize] whose results are kept
    on the session, each with the call [close] makes on that field. *)
Definition release_of (c : CapCall) (v : value) : option CapCall :=
  match c with
  | PlaywrightStart => Some (PlaywrightStop v)
  | ChromiumLaunch _ _ => Some (BrowserClose v)
  | BrowserNewContext _ _ => Some (ContextClose v)
  | ContextNewPage _ => Some (PageClose v)
  | _ => None
  end.

(** The engine of [e] accepts every release call, whatever was called
    before. *)
Definition releases_succeed (e : Env) : Prop :=
  ∀ hist c, is_release c = true → ∃ v, engine e hist c = CapOk v.

(** The session [close] leaves behind when every release succeeds:
    each handle that was set is [None]. *)
Definition released (self : BrowserSession) : BrowserSession :=
  {| session_id := session_id self;
     browser := if truthy (browser self) then VNone else browser self;
     context := if truthy (context self) then VNone else context self;
     page := if truthy (page self) then VNone else page self;
     playwright := if truthy (playwright self) then VNone else playwright self;
     network_interceptor := network_interceptor self;
     custom_headers := custom_headers self;
     created_at := created_at self;
     last_activity := last_activity self |}.

(** An engine that refuses to launch the browser and accepts every
    other call. *)
Definition launch_fails_engine (hist : list CapCall) (c : CapCall) : CapOutcome :=
  match c with
  | ChromiumLaunch _ _ => CapRaise (EngineError 2)
  | _ => obliging_engine hist c
  end.

(** ** Reading the pool *)

(** Some registered session is idle for longer than the timeout at clock
    reading [now]. *)
Definition some_session_expired (now : Z) (self : BrowserPool) : Prop :=
  ∃ sid session,
    sessions self !! sid = Some session
    ∧ is_expired now (session_timeout self) session = true.

(** A method body that never ends in [Block]. *)
Definition never_blocks {S A} (m : M S A) : Prop :=
  ∀ s w, outcome_of (m s w) ≠ Block.

(** ** The adapters' record conversions (http_server.py, rpc_server.py) *)

(** The pydantic model [NetworkRequest] of http_server.py:95-104. *)
Record NetworkRequest := {
  nr_request_id : string;
  nr_url : string;
  nr_method : string;
  nr_headers : gmap string string;
  nr_post_data : option string;
  nr_status_code : option Z;
  nr_response_body : option string;
  nr_response_headers : gmap string string;
  nr_timestamp : Z }.

(** The loop body of the HTTP handler [get_network_requests]
    (http_server.py:347-359).  [resp] is [req.get('response', {})]; the
    key is always there, so it is the stored dict or [None]. *)
Definition http_network_request (req : InterceptedRequest) : NetworkRequest :=
  let resp := req_response req in
  {| nr_request_id := req_request_id req;
     nr_url := req_url req;
     nr_method := req_method req;
     nr_headers := req_headers req;
     nr_post_data := req_post_data req;
     nr_status_code :=
       match resp with Some d => Some (resp_status_code d) | None => None end;
     nr_response_body :=
       match resp with Some d => resp_body d | None => None end;
     nr_response_headers :=
       match resp with Some d => resp_headers d | None => ∅ end;
     nr_timestamp := req_timestamp req |}.

(** The protobuf message [NetworkRequest], by the fields the gRPC handler
    fills (rpc_server.py:199-209); its declaration is generated code. *)
Record PbNetworkRequest := {
  pb_request_id : string;
  pb_url : string;
  pb_method : string;
  pb_headers : gmap string string;
  pb_post_data : string;
  pb_status_code : Z;
  pb_response_body : string;
  pb_response_headers : gmap string string;
  pb_timestamp : Z }.

(** [x or ''] for an optional string [x]. *)
Definition or_empty (x : option string) : string :=
  if opt_str_truthy x then default "" x else "".

(** The loop body of the gRPC handler [GetNetworkRequests]
    (rpc_server.py:197-210). *)
Definition grpc_network_request (req : InterceptedRequest) : PbNetworkRequest :=
  let resp := req_response req in
  {| pb_request_id := req_request_id req;
     pb_url := req_url req;
     pb_method := req_method req;
     pb_headers := req_headers req;
     pb_post_data := or_empty (req_post_data req);
     pb_status_code :=
       match resp with Some d => resp_status_code d | None => 0%Z end;
     pb_response_body :=
       match resp with Some d => or_empty (resp_body d) | None => "" end;
     pb_response_headers :=
       match resp with Some d => resp_headers d | None => ∅ end;
     pb_timestamp := req_timestamp req |}.

(** The pydantic model [Cookie] of http_server.py:162-170; [expires] is
    an integer instead of a float. *)
Record Cookie := {
  ck_name : string;
  ck_value : string;
  ck_domain : option string;
  ck_path : option string;
  ck_expires : option Z;
  ck_http_only : option bool;
  ck_secure : option bool;
  ck_same_site : option string }.

(** A cookie dict in Playwright's format: [name] and [value], and the
    optional keys, [None] when the key is absent. *)
Record PlaywrightCookie := {
  pw_name : string;
  pw_value : string;
  pw_domain : option string;
  pw_path : option string;
  pw_expires : option Z;
  pw_httpOnly : option bool;
  pw_secure : option bool;
  pw_sameSite : option string }.

(** [x if x else <key left out>] for an optional string. *)
Definition keep_str (x : option string) : option string :=
  if opt_str_truthy x then x else None.

(** The same for an optional number: [None] and zero are falsy. *)
Definition keep_num (x : option Z) : option Z :=
  match x with
  | Some z => if Z.eqb z 0 then None else Some z
  | None => None
  end.

(** The loop body of the HTTP handler [set_cookies]
    (http_server.py:484-501). *)
Definition cookie_to_playwright (cookie : Cookie) : PlaywrightCookie :=
  {| pw_name := ck_name cookie;
     pw_value := ck_value cookie;
     pw_domain := keep_str (ck_domain cookie);
     pw_path := keep_str (ck_path cookie);
     pw_expires := keep_num (ck_expires cookie);
     pw_httpOnly := ck_http_only cookie;
     pw_secure := ck_secure cookie;
     pw_sameSite := keep_str (ck_same_site cookie) |}.

(** The loop body of the HTTP handler [get_cookies]
    (http_server.py:526-536). *)
Definition cookie_of_playwright (cookie : PlaywrightCookie) : Cookie :=
  {| ck_name := pw_name cookie;
     ck_value := pw_value cookie;
     ck_domain := pw_domain cookie;
     ck_path := pw_path cookie;
     ck_expires := pw_expires cookie;
     ck_http_only := pw_httpOnly cookie;
     ck_secure := pw_secure cookie;
     ck_same_site := pw_sameSite cookie |}.

(** No optional field of the cookie holds an empty string or a zero. *)
Definition cookie_has_no_falsy_field (cookie : Cookie) : Prop :=
  ck_domain cookie ≠ Some ""
  ∧ ck_path cookie ≠ Some ""
  ∧ ck_expires cookie ≠ Some 0%Z
  ∧ ck_same_site cookie ≠ Some "".

(** ** Proof tools for the operations *)

(** Case analysis on every truth test and every engine answer met while
    running an operation. *)
Ltac op_cases :=
  repeat (match goal with
          | |- context [truthy ?v] =>
              lazymatch v with
              | VNone => fail
              | _ => let E := fresh "Ht" in destruct (truthy v) eqn:E
              end
          | |- context [opt_str_truthy ?o] =>
              let E := fresh "Ho" in destruct (opt_str_truthy o) eqn:E
          | |- context [match engine ?e ?t ?c with _ => _ end] =>
              let E := fresh "He" in destruct (engine e t c) eqn:E
          end; cbn in *).

Ltac unfold_operations :=
  unfold navigate, execute_script, get_content, wait_for_selector, click,
    type_text, screenshot, set_extra_headers, set_cookies, get_cookies in *.

(** Settles [trace w ++ calls = trace w ++ made ++ c :: rest] against the
    engine's answers recorded while running an operation: [c] is one of
    the calls made, and each of them has a recorded answer. *)
Ltac settle_failure :=
  let Htr := fresh "Htr" in
  let Heng := fresh "Heng" in
  intros Htr Heng; cbn in Htr;
  repeat match goal with
         | H : context [(_ ++ _) ++ _] |- _ =>
             rewrite <- app_assoc in H; cbn [app] in H
         end;
  first
    [ exfalso; apply (f_equal length) in Htr; rewrite !length_app in Htr;
      cbn in Htr; lia
    | apply app_inv_head in Htr;
      repeat (match goal with
              | H : _ = ?made ++ _ :: _ |- _ =>
                  is_var made; destruct made; simplify_eq/=
              end);
      repeat match goal with
             | H : context [_ ++ []] |- _ => rewrite app_nil_r in H
             end;
      repeat match goal with
             | H : context [(_ ++ _) ++ _] |- _ =>
                 rewrite <- app_assoc in H; cbn [app] in H
             end;
      first [ congruence | split; congruence ] ].


(** ** Proof tools *)

(** Unfolds the monad's operations down to case analyses on results. *)
Ltac run_monad :=
  unfold try_except, logger, raise, block, get, put, modify, call, time_time,
    uuid4_str, re_search_m, run_on, call_on, touch, outcome_of, state_of,
    world_of, mbind, M_bind, mret, M_ret in *;
  cbn [fst snd] in *.

(** Case analysis on every handle test and every engine answer met while
    running a method body. *)
Ltac step_cases :=
  repeat (match goal with
          | |- context [if truthy ?v then _ else _] =>
              let E := fresh "Ht" in destruct (truthy v) eqn:E
          | |- context [match engine ?e ?t ?c with _ => _ end] =>
              let E := fresh "He" in destruct (engine e t c) eqn:E
          end; cbn [fst snd env trace]).

Ltac normalize_lists :=
  repeat match goal with
         | H : context [(_ ++ _) ++ _] |- _ =>
             rewrite <- app_assoc in H; cbn [app] in H
         end;
  rewrite <- ?app_assoc; cbn [app].

(** ** NetworkInterceptor *)

Lemma filter_keeps_populated (l : list InterceptedRequest) :
  Forall (fun r => req_response r ≠ None)
         (List.filter (fun req => response_truthy (req_response req)) l).
Proof.
  induction l as [|r l IH]; simpl; [constructor|].
  destruct (req_response r) eqn:E; simpl; [|exact IH].
  constructor; [congruence | exact IH].
Qed.

Lemma filter_is_sublist (l : list InterceptedRequest) :
  sublist (List.filter (fun req => response_truthy (req_response req)) l) l.
Proof.
  induction l as [|r l IH]; simpl; [constructor|].
  destruct (response_truthy (req_response r)); by constructor.
Qed.

Lemma filter_is_greatest (k l : list InterceptedRequest) :
  sublist k l → Forall (fun r => req_response r ≠ None) k →
  sublist k (List.filter (fun req => response_truthy (req_response req)) l).
Proof.
  induction 1 as [|x k l Hs IH|x k l Hs IH]; intros Hk; simpl.
  - constructor.
  - inversion Hk as [|? ? Hx Hk']; subst.
    destruct (req_response x); [|congruence]. simpl.
    constructor. by apply IH.
  - destruct (response_truthy (req_response x)); [constructor|]; by apply IH.
Qed.

(** C4. [get_requests] returns exactly the stored records whose response
    slot is populated, in insertion order: no returned record has an empty
    slot, the result is a subsequence of the store, and every subsequence
    of the store made of populated records is a subsequence of the result
    (so none is left out, and none is repeated or moved). *)
Theorem get_requests_exactly_populated (self : NetworkInterceptor) :
  Forall (fun r => req_response r ≠ None) (get_requests self)
  ∧ sublist (get_requests self) (requests self)
  ∧ (∀ k, sublist k (requests self) →
          Forall (fun r => req_response r ≠ None) k →
          sublist k (get_requests self))
  ∧ (∀ r, r ∈ get_requests self ↔ r ∈ requests self ∧ req_response r ≠ None).
Proof.
  unfold get_requests. split; [apply filter_keeps_populated|].
  split; [apply filter_is_sublist|].
  split; [intros k; apply filter_is_greatest|].
  intros r. rewrite !list_elem_of_In, filter_In.
  destruct (req_response r); simpl; split; intros [? ?]; split; congruence.
Qed.

(** ** BrowserSession *)

(** C6. On a session that was never initialized (no page, no context)
    each of the ten operations raises the not-initialized [RuntimeError]
    and leaves the session and the world as they were: no Playwright call
    enters the trace, nothing is logged, no clock is read. *)
Theorem uninitialized_session_refuses (self : BrowserSession) (w : World)
    (Hpage : page self = VNone) (Hcontext : context self = VNone) :
  (∀ url timeout, navigate url timeout self w = (Raise UninitializedSession, self, w))
  ∧ (∀ script, execute_script script self w = (Raise UninitializedSession, self, w))
  ∧ get_content self w = (Raise UninitializedSession, self, w)
  ∧ (∀ selector timeout,
       wait_for_selector selector timeout self w = (Raise UninitializedSession, self, w))
  ∧ (∀ selector, click selector self w = (Raise UninitializedSession, self, w))
  ∧ (∀ selector text,
       type_text selector text self w = (Raise UninitializedSession, self, w))
  ∧ (∀ selector full_page,
       screenshot selector full_page self w = (Raise UninitializedSession, self, w))
  ∧ (∀ headers, set_extra_headers headers self w = (Raise UninitializedSession, self, w))
  ∧ (∀ cookies, set_cookies cookies self w = (Raise UninitializedSession, self, w))
  ∧ (∀ url, get_cookies url self w = (Raise UninitializedSession, self, w)).
Proof.
  unfold navigate, execute_script, get_content, wait_for_selector, click,
    type_text, screenshot, set_extra_headers, set_cookies, get_cookies.
  run_monad. rewrite Hpage, Hcontext. simpl. repeat split.
Qed.

Lemma uninitialized_session_refuses_witness :
  navigate "https://example.org" 30 fresh_session (sample_world obliging_engine 0)
  = (Raise UninitializedSession, fresh_session, sample_world obliging_engine 0).
Proof.
  apply (uninitialized_session_refuses fresh_session (sample_world obliging_engine 0));
    reflexivity.
Defined.

(** ** NetworkInterceptor: recording requests and matching responses *)

Lemma awaits_response_unanswered (url : string) (req : InterceptedRequest) :
  awaits_response url req = true ↔ unanswered url req.
Proof.
  unfold awaits_response, unanswered. rewrite andb_true_iff, String.eqb_eq.
  destruct (req_response req); intuition congruence.
Qed.

Lemma awaits_response_false (url : string) (req : InterceptedRequest) :
  ¬ unanswered url req → awaits_response url req = false.
Proof.
  intros H. destruct (awaits_response url req) eqn:E; [|done].
  by apply awaits_response_unanswered in E.
Qed.

Lemma response_dict_result {S} (response : ResponseEvent) (s : S) (w : World) :
  response_dict response s w
  = (Ret (recorded_response w response), s, world_after_body w response).
Proof.
  unfold response_dict, await_body, recorded_response, world_after_body.
  run_monad. by destruct (rv_body response).
Qed.

Lemma first_awaiting_split (url : string) (pre post : list InterceptedRequest)
    (a : InterceptedRequest) :
  Forall (fun r => ¬ unanswered url r) pre →
  unanswered url a →
  first_awaiting url (pre ++ a :: post) = Some (length pre).
Proof.
  intros Hpre Ha. induction Hpre as [|x pre Hx Hpre IH]; cbn.
  - apply awaits_response_unanswered in Ha. by rewrite Ha.
  - by rewrite (awaits_response_false _ _ Hx), IH.
Qed.

Lemma first_awaiting_none (url : string) (reqs : list InterceptedRequest) :
  Forall (fun r => ¬ unanswered url r) reqs → first_awaiting url reqs = None.
Proof.
  induction 1 as [|x l Hx Hl IH]; cbn; [done|].
  by rewrite (awaits_response_false _ _ Hx), IH.
Qed.

Lemma alter_at_split (f : InterceptedRequest → InterceptedRequest)
    (pre post : list InterceptedRequest) (a : InterceptedRequest) :
  alter f (length pre) (pre ++ a :: post) = pre ++ f a :: post.
Proof. induction pre as [|x pre IH]; cbn; [done|]. by rewrite IH. Qed.

Lemma on_response_store_result (response : ResponseEvent) (i : nat)
    (self : NetworkInterceptor) (w : World) :
  on_response_store response i self w
  = (Ret tt,
     {| requests := alter (set_response (Some (recorded_response w response))) i
                      (requests self);
        url_pattern := url_pattern self |},
     world_after_body w response).
Proof.
  unfold on_response_store, mbind, M_bind, modify.
  by rewrite response_dict_result.
Qed.

(** Any store either has no record awaiting [url], or splits at the first. *)
Lemma first_unanswered (url : string) (reqs : list InterceptedRequest) :
  Forall (fun r => ¬ unanswered url r) reqs
  ∨ ∃ pre a post, reqs = pre ++ a :: post
      ∧ Forall (fun r => ¬ unanswered url r) pre ∧ unanswered url a.
Proof.
  induction reqs as [|x l IH]; [by left|].
  destruct (awaits_response url x) eqn:E.
  - right. exists [], x, l. split; [done|]. split; [constructor|].
    by apply awaits_response_unanswered.
  - assert (¬ unanswered url x) as Hx.
    { intros H. apply awaits_response_unanswered in H. congruence. }
    destruct IH as [IH|(pre & a & post & -> & Hpre & Ha)].
    + left. by constructor.
    + right. exists (x :: pre), a, post. split; [done|]. split; [by constructor|done].
Qed.

Lemma filtered_out_passes {S} (w : World) (pattern : option string) (url : string) (s : S) :
  passes_filter w pattern url → filtered_out pattern url s w = (Ret false, s, w).
Proof.
  unfold passes_filter, filtered_out. intros [H|H].
  - destruct pattern as [p|]; [|done]. simpl in H. by rewrite H.
  - destruct pattern as [p|]; [|done]. simpl in H.
    destruct (str_truthy p); [|done]. run_monad. by rewrite H.
Qed.

Lemma filtered_out_blocks {S} (w : World) (pattern : option string) (url : string) (s : S) :
  ¬ passes_filter w pattern url →
  filtered_out pattern url s w = (Ret true, s, w)
  ∨ filtered_out pattern url s w = (Raise (ReError (default "" pattern)), s, w).
Proof.
  unfold passes_filter, filtered_out. intros H.
  destruct pattern as [p|]; simpl in *; [|tauto].
  destruct (str_truthy p); [|tauto]. run_monad.
  destruct (re_search (env w) p url) as [[|]|]; [tauto|by left|by right].
Qed.

Lemma passes_filter_dec (w : World) (pattern : option string) (url : string) :
  passes_filter w pattern url ∨ ¬ passes_filter w pattern url.
Proof.
  unfold passes_filter.
  destruct (opt_str_truthy pattern); [|by left; left].
  destruct (re_search (env w) (default "" pattern) url) as [[|]|].
  - left. by right.
  - right. intros [?|?]; congruence.
  - right. intros [?|?]; congruence.
Qed.

Lemma on_response_passes (response : ResponseEvent) (self : NetworkInterceptor) (w : World) :
  passes_filter w (url_pattern self) (rv_url response) →
  on_response response self w
  = match first_awaiting (rv_url response) (requests self) with
    | Some i => on_response_store response i self w
    | None => (Ret tt, self, w)
    end.
Proof.
  intros H. unfold on_response, on_response_pick, try_except, mbind, M_bind, get.
  rewrite (filtered_out_passes _ _ _ _ H). cbn.
  destruct (first_awaiting (rv_url response) (requests self)) as [i|]; [|done].
  by rewrite on_response_store_result.
Qed.

Lemma on_response_fills (response : ResponseEvent) (self : NetworkInterceptor) (w : World)
    (pre post : list InterceptedRequest) (a : InterceptedRequest) :
  passes_filter w (url_pattern self) (rv_url response) →
  requests self = pre ++ a :: post →
  Forall (fun r => ¬ unanswered (rv_url response) r) pre →
  unanswered (rv_url response) a →
  on_response response self w
  = (Ret tt,
     {| requests := pre ++ set_response (Some (recorded_response w response)) a :: post;
        url_pattern := url_pattern self |},
     world_after_body w response).
Proof.
  intros Hp Hs Hpre Ha. rewrite on_response_passes by done.
  rewrite Hs, first_awaiting_split by done.
  by rewrite on_response_store_result, Hs, alter_at_split.
Qed.

Lemma on_response_skips (response : ResponseEvent) (self : NetworkInterceptor) (w : World) :
  passes_filter w (url_pattern self) (rv_url response) →
  Forall (fun r => ¬ unanswered (rv_url response) r) (requests self) →
  on_response response self w = (Ret tt, self, w).
Proof.
  intros Hp Hn. rewrite on_response_passes by done.
  by rewrite first_awaiting_none.
Qed.

Lemma on_response_blocked (response : ResponseEvent) (self : NetworkInterceptor) (w : World) :
  ¬ passes_filter w (url_pattern self) (rv_url response) →
  outcome_of (on_response response self w) = Ret tt
  ∧ state_of (on_response response self w) = self.
Proof.
  intros H. unfold on_response, on_response_pick, try_except, mbind, M_bind, get.
  destruct (filtered_out_blocks w _ _ self H) as [-> | ->]; by run_monad.
Qed.




(** ** NetworkInterceptor: the recorded request body *)

Lemma on_request_result (request : RequestEvent) (self : NetworkInterceptor) (w : World) :
  outcome_of (on_request request self w) = Ret tt
  ∧ url_pattern (state_of (on_request request self w)) = url_pattern self
  ∧ (passes_filter w (url_pattern self) (ev_url request) →
      requests (state_of (on_request request self w))
      = requests self ++
        [{| req_request_id := uuid_source (env w) (uuid_draws w);
            req_url := ev_url request;
            req_method := ev_method request;
            req_headers := ev_headers request;
            req_post_data :=
              if String.eqb (ev_method request) "POST"
              then ev_post_data request else None;
            req_timestamp := time_source (env w) (clock_reads w);
            req_response := None |}])
  ∧ (¬ passes_filter w (url_pattern self) (ev_url request) →
      requests (state_of (on_request request self w)) = requests self).
Proof.
  unfold on_request, try_except, mbind, M_bind, get.
  destruct (passes_filter_dec w (url_pattern self) (ev_url request)) as [Hp|Hp].
  - rewrite (filtered_out_passes _ _ _ _ Hp). run_monad. by destruct self.
  - destruct (filtered_out_blocks w _ _ self Hp) as [-> | ->]; by run_monad.
Qed.

(** C10, as amended.  [on_request] never raises and appends at most one
    record; the record it appends when the filter lets the URL through
    carries the event's post data if the method is exactly "POST" (which
    is absent when the POST had no body) and no body for every other
    method. *)
Theorem request_body_recorded_for_POST_only
    (request : RequestEvent) (self : NetworkInterceptor) (w : World)
    (Hpass : passes_filter w (url_pattern self) (ev_url request)) :
  ∃ rec,
    requests (state_of (on_request request self w)) = requests self ++ [rec]
    ∧ req_url rec = ev_url request
    ∧ req_method rec = ev_method request
    ∧ req_response rec = None
    ∧ (ev_method request = "POST" → req_post_data rec = ev_post_data request)
    ∧ (ev_method request ≠ "POST" → req_post_data rec = None).
Proof.
  destruct (on_request_result request self w) as (_ & _ & H & _).
  eexists. split; [by apply H|]. simpl. repeat split.
  - intros E. by rewrite (proj2 (String.eqb_eq _ _) E).
  - intros E. by rewrite (proj2 (String.eqb_neq _ _) E).
Qed.

Lemma request_body_recorded_for_POST_only_witness :
  let w := sample_world obliging_engine 0 in
  passes_filter w None "/api/x"
  ∧ ∃ rec,
      requests (state_of (on_request (sample_request "/api/x" "POST" (Some "a=1"))
                            NetworkInterceptor_init w)) = [] ++ [rec]
      ∧ ("POST" = "POST" → req_post_data rec = Some "a=1").
Proof.
  assert (passes_filter (sample_world obliging_engine 0) None "/api/x") as Hp
    by (left; reflexivity).
  split; [exact Hp|].
  destruct (request_body_recorded_for_POST_only
              (sample_request "/api/x" "POST" (Some "a=1"))
              NetworkInterceptor_init (sample_world obliging_engine 0) Hp)
    as (rec & H1 & _ & _ & _ & H2 & _).
  exists rec. split; [exact H1 | exact H2].
Defined.

(** C10, as stated, fails in both directions: a PUT request that carries
    a body is recorded without it, and a POST request without a body is
    recorded with an empty body field. *)
Lemma request_body_dropped_for_PUT :
  let w := sample_world obliging_engine 0 in
  let put_ := sample_request "/api/x" "PUT" (Some "{}") in
  let post := sample_request "/api/x" "POST" None in
  ((fun r => (req_method r, req_post_data r)) <$>
     requests (state_of (on_request put_ NetworkInterceptor_init w)))
  = [("PUT", None)]
  ∧ ((fun r => (req_method r, req_post_data r)) <$>
       requests (state_of (on_request post NetworkInterceptor_init w)))
    = [("POST", None)].
Proof. vm_compute. split; reflexivity. Qed.

(** ** BrowserSession: teardown *)

Lemma close_returns (self : BrowserSession) (w : World) :
  outcome_of (close self w) = Ret tt.
Proof.
  unfold close. run_monad. cbn. step_cases; reflexivity.
Qed.

Lemma plan_succeeds_or_fails (e : Env) (hist calls : list CapCall) :
  plan_succeeds e hist calls
  ∨ ∃ made c skipped ex,
      calls = made ++ c :: skipped
      ∧ plan_succeeds e hist made
      ∧ engine e (hist ++ made) c = CapRaise ex.
Proof.
  revert hist. induction calls as [|c calls IH]; intros hist; [by left|].
  destruct (engine e hist c) as [v|ex] eqn:Hc.
  - destruct (IH (hist ++ [c])) as [Hok|(made & c' & skipped & ex & -> & Hm & Hf)].
    + left. split; [by exists v | done].
    + right. exists (c :: made), c', skipped, ex. split; [done|].
      split; [split; [by exists v | done]|]. by rewrite <- app_assoc in Hf.
  - right. exists [], c, calls, ex. split; [done|]. split; [done|].
    by rewrite app_nil_r.
Qed.

Lemma plan_success_excludes_failure (e : Env) (hist made skipped : list CapCall)
    (c : CapCall) (ex : exn) :
  plan_succeeds e hist (made ++ c :: skipped) →
  engine e (hist ++ made) c = CapRaise ex → False.
Proof.
  revert hist. induction made as [|x made IH]; intros hist; cbn.
  - rewrite app_nil_r. intros [[v Hv] _] Hf. congruence.
  - intros [_ Hrest] Hf. apply (IH (hist ++ [x])); [done|].
    by rewrite <- app_assoc.
Qed.

Lemma plan_failure_unique (e : Env) (hist made made' skipped skipped' : list CapCall)
    (c c' : CapCall) (ex ex' : exn) :
  made ++ c :: skipped = made' ++ c' :: skipped' →
  plan_succeeds e hist made → engine e (hist ++ made) c = CapRaise ex →
  plan_succeeds e hist made' → engine e (hist ++ made') c' = CapRaise ex' →
  made = made' ∧ c = c' ∧ skipped = skipped' ∧ ex = ex'.
Proof.
  revert hist made'. induction made as [|x made IH]; intros hist [|x' made']; cbn.
  - rewrite app_nil_r. intros [= -> ->] _ Hf _ Hf'. by rewrite Hf in Hf'; injection Hf' as ->.
  - rewrite app_nil_r. intros [= -> _] _ Hf [[v Hv] _] _. congruence.
  - rewrite app_nil_r. intros [= -> _] [[v Hv] _] _ _ Hf'. congruence.
  - intros [= -> Heq] [_ Hm] Hf [_ Hm'] Hf'.
    destruct (IH (hist ++ [x']) made' Heq Hm) as (-> & -> & -> & ->);
      rewrite <- ?app_assoc; done.
Qed.

Lemma close_cases (self : BrowserSession) (w : World) :
  ∃ self' w',
    close self w = (Ret tt, self', w')
    ∧ ((plan_succeeds (env w) (trace w) (release_plan self)
        ∧ self' = released self
        ∧ w' = with_log (log w ++ [{| log_level := INFO; log_line := 373;
                                      log_exc := None |}])
                 (with_trace (trace w ++ release_plan self) w))
       ∨ (∃ made c skipped e,
            release_plan self = made ++ c :: skipped
            ∧ plan_succeeds (env w) (trace w) made
            ∧ engine (env w) (trace w ++ made) c = CapRaise e
            ∧ trace w' = trace w ++ made ++ [c]
            ∧ log w' = log w ++ [{| log_level := ERROR; log_line := 375;
                                    log_exc := Some e |}]
            ∧ release_plan self' = c :: skipped)).
Proof.
  unfold close, release_plan, released. run_monad.
  destruct self as [sid b c p d ni ch ca la]. cbn.
  destruct (truthy p) eqn:Hp, (truthy c) eqn:Hc, (truthy b) eqn:Hb,
    (truthy d) eqn:Hd;
    repeat (cbn; rewrite ?Hp, ?Hc, ?Hb, ?Hd;
            try match goal with
                | |- context [match engine ?e ?t ?k with _ => _ end] =>
                    destruct (engine e t k) eqn:?
                end);
    (eexists _, _; split; [reflexivity|]);
    cbn in *; rewrite ?Hp, ?Hc, ?Hb, ?Hd; cbn; normalize_lists;
    first
      [ left; split; [by eauto 10|]; split; [done|];
        rewrite ?app_nil_r; by destruct w
      | right; exists []; eexists _, _, _; cbn; rewrite ?app_nil_r;
        repeat split; (done || by eauto 10)
      | right; eexists [_]; eexists _, _, _; cbn; normalize_lists;
        repeat split; (done || by eauto 10)
      | right; eexists [_; _]; eexists _, _, _; cbn; normalize_lists;
        repeat split; (done || by eauto 10)
      | right; eexists [_; _; _]; eexists _, _, _; cbn; normalize_lists;
        repeat split; (done || by eauto 10) ].
Qed.

(** C8, as amended.  [close] never raises and makes its release calls in
    the order page, context, browser, driver, one for every handle that
    is set.  When every one of them is accepted, all are made and every
    handle that was set is cleared.  When one of them fails after the
    earlier ones were accepted, the failure is logged and the teardown
    ends there: the calls that come after it in the plan are not made
    and their handles, like the handle of the failed call, stay set.
    One of the two is always the case. *)
Theorem close_stops_at_first_failure (self : BrowserSession) (w : World) :
  (plan_succeeds (env w) (trace w) (release_plan self) →
   close self w
   = (Ret tt, released self,
      with_log (log w ++ [{| log_level := INFO; log_line := 373; log_exc := None |}])
        (with_trace (trace w ++ release_plan self) w)))
  ∧ (∀ made c skipped e,
       release_plan self = made ++ c :: skipped →
       plan_succeeds (env w) (trace w) made →
       engine (env w) (trace w ++ made) c = CapRaise e →
       outcome_of (close self w) = Ret tt
       ∧ trace (world_of (close self w)) = trace w ++ made ++ [c]
       ∧ log (world_of (close self w))
         = log w ++ [{| log_level := ERROR; log_line := 375; log_exc := Some e |}]
       ∧ release_plan (state_of (close self w)) = c :: skipped)
  ∧ (plan_succeeds (env w) (trace w) (release_plan self)
     ∨ ∃ made c skipped e,
         release_plan self = made ++ c :: skipped
         ∧ plan_succeeds (env w) (trace w) made
         ∧ engine (env w) (trace w ++ made) c = CapRaise e).
Proof.
  destruct (close_cases self w) as (self' & w' & Hclose & Hcases).
  rewrite Hclose. unfold outcome_of, state_of, world_of. cbn [fst snd].
  split; [|split].
  - intros Hall.
    destruct Hcases as [(_ & -> & ->) | (made & c & skipped & e & Hs & _ & Hf & _)];
      [done|].
    exfalso. rewrite Hs in Hall. by eapply plan_success_excludes_failure.
  - intros made c skipped e Hs Hm Hf.
    destruct Hcases as [(Hall & _) | (made' & c' & skipped' & e' & Hs' & Hm' & Hf' & Ht & Hl & Hr)].
    + exfalso. rewrite Hs in Hall. by eapply plan_success_excludes_failure.
    + rewrite Hs in Hs'.
      destruct (plan_failure_unique _ _ _ _ _ _ _ _ _ _ Hs' Hm Hf Hm' Hf')
        as (-> & -> & -> & ->).
      done.
  - apply plan_succeeds_or_fails.
Qed.

Lemma close_stops_at_first_failure_witness :
  let w := sample_world context_close_fails 0 in
  let r := close live_session w in
  release_plan live_session
  = [PageClose (VObj 4)] ++ ContextClose (VObj 3)
      :: [BrowserClose (VObj 2); PlaywrightStop (VObj 1)]
  ∧ plan_succeeds (env w) (trace w) [PageClose (VObj 4)]
  ∧ engine (env w) (trace w ++ [PageClose (VObj 4)]) (ContextClose (VObj 3))
    = CapRaise (EngineError 2)
  ∧ outcome_of r = Ret tt
  ∧ trace (world_of r) = [PageClose (VObj 4); ContextClose (VObj 3)]
  ∧ release_plan (state_of r)
    = [ContextClose (VObj 3); BrowserClose (VObj 2); PlaywrightStop (VObj 1)].
Proof.
  assert (plan_succeeds (env (sample_world context_close_fails 0))
            (trace (sample_world context_close_fails 0)) [PageClose (VObj 4)])
    as Hmade.
  { split; [by eexists | exact I]. }
  split; [reflexivity|]. split; [exact Hmade|]. split; [reflexivity|].
  destruct (close_stops_at_first_failure live_session
              (sample_world context_close_fails 0)) as (_ & Hstop & _).
  destruct (Hstop [PageClose (VObj 4)] (ContextClose (VObj 3))
              [BrowserClose (VObj 2); PlaywrightStop (VObj 1)] (EngineError 2)
              eq_refl Hmade eq_refl) as (H1 & H2 & _ & H4).
  split; [exact H1|]. split; [exact H2 | exact H4].
Defined.

(** C8, as stated, fails: on a live session whose page fails to close,
    [close] makes the page call only; context, browser and driver are
    neither released nor cleared, although each of those calls would
    have succeeded. *)
Lemma close_abandons_teardown_when_page_fails :
  let w := sample_world page_close_fails 0 in
  let r := close live_session w in
  outcome_of r = Ret tt
  ∧ trace (world_of r) = [PageClose (VObj 4)]
  ∧ (context (state_of r), browser (state_of r), playwright (state_of r))
    = (VObj 3, VObj 2, VObj 1)
  ∧ engine (env w) (trace (world_of r)) (ContextClose (VObj 3)) = CapOk (VObj 2).
Proof. vm_compute. repeat split. Qed.

(** ** BrowserSession: headers *)

Lemma set_extra_headers_result (headers : gmap string string)
    (self : BrowserSession) (w : World) :
  truthy (context self) = true →
  custom_headers (state_of (set_extra_headers headers self w))
  = headers ∪ custom_headers self
  ∧ context (state_of (set_extra_headers headers self w)) = context self
  ∧ trace (world_of (set_extra_headers headers self w))
    = trace w ++ [ContextSetExtraHTTPHeaders (context self)
                    (headers ∪ custom_headers self)].
Proof.
  intros H. unfold set_extra_headers. run_monad. rewrite H. cbn.
  by destruct (engine _ _ _).
Qed.

(** C7. On an initialized session, [set_extra_headers] with [h1] and
    then with [h2], whose keys are disjoint, leaves every entry of [h1]
    and every entry of [h2] in the accumulated mapping, keeps the entries
    under keys neither call names, and the mapping handed to the context
    by the second call is that accumulated mapping. *)
Theorem set_extra_headers_accumulates
    (self : BrowserSession) (w1 w2 : World) (h1 h2 : gmap string string)
    (Hinit : truthy (context self) = true)
    (Hdisjoint : h1 ##ₘ h2) :
  let s1 := state_of (set_extra_headers h1 self w1) in
  let r2 := set_extra_headers h2 s1 w2 in
  h1 ⊆ custom_headers (state_of r2)
  ∧ h2 ⊆ custom_headers (state_of r2)
  ∧ (∀ k, h1 !! k = None → h2 !! k = None →
          custom_headers (state_of r2) !! k = custom_headers self !! k)
  ∧ trace (world_of r2)
    = trace w2 ++ [ContextSetExtraHTTPHeaders (context self)
                     (custom_headers (state_of r2))].
Proof.
  intros s1 r2.
  destruct (set_extra_headers_result h1 self w1 Hinit) as (E1 & C1 & _).
  fold s1 in E1, C1.
  assert (truthy (context s1) = true) as Hinit1 by (by rewrite C1).
  destruct (set_extra_headers_result h2 s1 w2 Hinit1) as (E2 & _ & T2).
  fold r2 in E2, T2. rewrite T2, E2, E1, C1.
  split; [|split; [|split]]; [| |intros k Hk1 Hk2|done].
  - apply map_subseteq_spec. intros k v Hk.
    rewrite lookup_union_r by (by eapply map_disjoint_Some_l).
    by apply lookup_union_Some_l.
  - apply map_union_subseteq_l.
  - by rewrite !lookup_union_r.
Qed.

Lemma set_extra_headers_accumulates_witness :
  let w := sample_world obliging_engine 0 in
  let h1 : gmap string string := {[ "X-Trace" := "1" ]} in
  let h2 : gmap string string := {[ "Accept-Language" := "en" ]} in
  let r2 := set_extra_headers h2 (state_of (set_extra_headers h1 live_session w)) w in
  truthy (context live_session) = true
  ∧ h1 ⊆ custom_headers (state_of r2)
  ∧ h2 ⊆ custom_headers (state_of r2).
Proof.
  split; [reflexivity|].
  assert (({[ "X-Trace" := "1" ]} : gmap string string)
            ##ₘ {[ "Accept-Language" := "en" ]}) as Hd.
  { apply map_disjoint_singleton_l. by vm_compute. }
  destruct (set_extra_headers_accumulates live_session
              (sample_world obliging_engine 0) (sample_world obliging_engine 0)
              _ _ eq_refl Hd) as (H1 & H2 & _).
  split; [exact H1 | exact H2].
Defined.

(** ** Which failures are swallowed and which propagate *)

Lemma on_response_returns (response : ResponseEvent) (self : NetworkInterceptor)
    (w : World) :
  outcome_of (on_response response self w) = Ret tt.
Proof.
  destruct (passes_filter_dec w (url_pattern self) (rv_url response)) as [Hp|Hp].
  - destruct (first_unanswered (rv_url response) (requests self))
      as [Hn|(l & x & r & Hs & Hl & Hx)].
    + by rewrite on_response_skips.
    + by rewrite (on_response_fills response self w l r x).
  - by apply on_response_blocked.
Qed.

(** C9, as amended.  When fetching the body of a response fails,
    [on_response] returns normally, fills the first matching record with
    the status and headers and a null body, and logs a warning.  Body
    failures are not the only failures swallowed: [on_request],
    [on_response] and [BrowserSession.close] never raise, whatever fails
    inside them.  A failure of the engine during one of the ten session
    operations does reach the caller: whichever of the operation's engine
    calls is refused, that call is the last one the operation makes and
    the operation raises the exception the engine raised. *)
Theorem body_failure_swallowed_engine_failure_propagates
    (self : NetworkInterceptor) (w : World) (response : ResponseEvent)
    (pre post : list InterceptedRequest) (a : InterceptedRequest) (e_body : exn)
    (Hstore : requests self = pre ++ a :: post)
    (Hpre : Forall (fun r => ¬ unanswered (rv_url response) r) pre)
    (Ha : unanswered (rv_url response) a)
    (Hpass : passes_filter w (url_pattern self) (rv_url response))
    (Hbody : rv_body response = inr e_body) :
  on_response response self w
  = (Ret tt,
     {| requests :=
          pre ++ set_response
                   (Some {| resp_status_code := rv_status response;
                            resp_headers := rv_headers response;
                            resp_body := None |}) a :: post;
        url_pattern := url_pattern self |},
     with_log (log w ++ [{| log_level := WARNING; log_line := 76;
                            log_exc := Some e_body |}]) w)
  ∧ (∀ request s0 w0, outcome_of (on_request request s0 w0) = Ret tt)
  ∧ (∀ response0 s0 w0, outcome_of (on_response response0 s0 w0) = Ret tt)
  ∧ (∀ s0 w0, outcome_of (close s0 w0) = Ret tt)
  ∧ (∀ url timeout, propagates_engine_failures (navigate url timeout))
  ∧ (∀ script, propagates_engine_failures (execute_script script))
  ∧ propagates_engine_failures get_content
  ∧ (∀ selector timeout,
       propagates_engine_failures (wait_for_selector selector timeout))
  ∧ (∀ selector, propagates_engine_failures (click selector))
  ∧ (∀ selector text, propagates_engine_failures (type_text selector text))
  ∧ (∀ selector full_page,
       propagates_engine_failures (screenshot selector full_page))
  ∧ (∀ headers, propagates_engine_failures (set_extra_headers headers))
  ∧ (∀ cookies, propagates_engine_failures (set_cookies cookies))
  ∧ (∀ url, propagates_engine_failures (get_cookies url)).
Proof.
  split.
  { rewrite (on_response_fills response self w pre post a) by done.
    unfold recorded_response, world_after_body. by rewrite Hbody. }
  split; [intros; apply on_request_result|].
  split; [intros; apply on_response_returns|].
  split; [intros; apply close_returns|].
  clear. unfold propagates_engine_failures.
  repeat split; intros; revert H H0;
    unfold navigate, execute_script, get_content, wait_for_selector, click,
      type_text, screenshot, set_extra_headers, set_cookies, get_cookies;
    run_monad; op_cases; settle_failure.
Qed.

Lemma body_failure_swallowed_engine_failure_propagates_witness :
  let w := sample_world obliging_engine 0 in
  let self := {| requests := [pending "1" "/api/x"]; url_pattern := None |} in
  let response := sample_response "/api/x" 502 (inr (EngineError 3)) in
  let w' := sample_world failing_engine 0 in
  let goto := PageGoto (page live_session) "https://example.org" 30000 in
  (req_response <$> requests (state_of (on_response response self w)))
  = [Some {| resp_status_code := 502; resp_headers := ∅; resp_body := None |}]
  ∧ trace (world_of (navigate "https://example.org" 30 live_session w')) = [goto]
  ∧ engine (env w') [] goto = CapRaise (EngineError 7)
  ∧ outcome_of (navigate "https://example.org" 30 live_session w')
    = Raise (EngineError 7).
Proof.
  destruct (body_failure_swallowed_engine_failure_propagates
              {| requests := [pending "1" "/api/x"]; url_pattern := None |}
              (sample_world obliging_engine 0)
              (sample_response "/api/x" 502 (inr (EngineError 3)))
              [] [] (pending "1" "/api/x") (EngineError 3)
              eq_refl (Forall_nil_2 _) (conj eq_refl eq_refl)
              (or_introl eq_refl) eq_refl)
    as (H1 & _ & _ & _ & H2 & _).
  split; [by rewrite H1|].
  split; [reflexivity|].
  split; [reflexivity|].
  exact (proj1 (H2 "https://example.org" 30%Z live_session
                  (sample_world failing_engine 0) []
                  (PageGoto (page live_session) "https://example.org" 30000) []
                  (EngineError 7) eq_refl eq_refl)).
Defined.

(** C9, as stated, fails: body failures are not the only swallowed
    class.  An invalid filter pattern makes [re.search] raise inside
    [on_request]; the call returns normally, records nothing and only
    logs.  A page that fails to close makes [close] log and return
    normally. *)
Lemma other_failures_are_swallowed :
  let w := sample_world page_close_fails 0 in
  let self := {| requests := []; url_pattern := Some "(" |} in
  let r := on_request (sample_request "/api/x" "GET" None) self w in
  let c := close live_session w in
  re_search (env w) "(" "/api/x" = None
  ∧ outcome_of r = Ret tt
  ∧ requests (state_of r) = []
  ∧ log (world_of r)
    = [{| log_level := ERROR; log_line := 57; log_exc := Some (ReError "(") |}]
  ∧ engine (env w) [] (PageClose (VObj 4)) = CapRaise (EngineError 1)
  ∧ outcome_of c = Ret tt
  ∧ log (world_of c)
    = [{| log_level := ERROR; log_line := 375; log_exc := Some (EngineError 1) |}].
Proof. vm_compute. repeat split. Qed.

(** ** BrowserPool *)

Lemma close_session_held (sid : string) (self : BrowserPool) (w : World) :
  _lock self = true → close_session sid self w = (Block, self, w).
Proof. intros H. unfold close_session, async_with_lock. by rewrite H. Qed.

Lemma close_session_free (sid : string) (self : BrowserPool) (w : World) :
  _lock self = false →
  close_session sid self w
  = match sessions self !! sid with
    | Some session =>
        (Ret true, set_sessions (delete sid (sessions self)) self,
         with_log (log (world_of (close session w))
                     ++ [{| log_level := INFO; log_line := 428; log_exc := None |}])
                  (world_of (close session w)))
    | None => (Ret false, self, w)
    end.
Proof.
  intros H. unfold close_session, async_with_lock. rewrite H. run_monad.
  destruct self as [m mx tm lk]. cbn in *. subst lk.
  destruct (m !! sid) as [session|] eqn:E; cbn.
  - pose proof (close_returns session w) as Hc. unfold outcome_of in Hc.
    destruct (close session w) as [[r s'] w']. cbn in *. by subst r.
  - by rewrite delete_id.
Qed.

Lemma for_each_blocked {S X} (xs : list X) (body : X → M S unit) (s : S) (w : World) :
  (∀ x, body x s w = (Block, s, w)) →
  for_each xs body s w = (match xs with [] => Ret tt | _ => Block end, s, w).
Proof.
  intros H. destruct xs as [|x xs]; [done|].
  cbn. unfold mbind, M_bind. by rewrite H.
Qed.

(** Called with the lock held, as [create_session] does, the sweep can
    only return when there is nothing to evict: its first
    [close_session] waits for the lock its caller holds. *)
Lemma cleanup_with_lock_held (self : BrowserPool) (w : World) :
  _lock self = true →
  _cleanup_expired_sessions self w
  = (match expired_ids (time_source (env w) (clock_reads w)) self with
     | [] => Ret tt
     | _ => Block
     end, self, after_clock_read w).
Proof.
  intros H. unfold _cleanup_expired_sessions. run_monad.
  fold (after_clock_read w).
  fold (expired_ids (time_source (env w) (clock_reads w)) self).
  apply for_each_blocked. intros sid.
  by rewrite close_session_held.
Qed.

Lemma expired_ids_nonempty (now : Z) (self : BrowserPool) (sid : string)
    (session : BrowserSession) :
  sessions self !! sid = Some session →
  is_expired now (session_timeout self) session = true →
  expired_ids now self ≠ [].
Proof.
  intros Hs He Hnil. unfold expired_ids in Hnil.
  apply fmap_nil_inv in Hnil.
  assert (In (sid, session)
            (List.filter (fun item => is_expired now (session_timeout self) item.2)
                         (map_to_list (sessions self)))) as Hin.
  { apply filter_In. split; [|done].
    apply list_elem_of_In. by apply elem_of_map_to_list. }
  by rewrite Hnil in Hin.
Qed.

Opaque initialize close.

(** [create_session] on a pool whose lock is free, path by path. *)
Lemma create_session_free (headless : bool) (user_agent : option string)
    (proxy : option (gmap string string)) (width height : Z)
    (self : BrowserPool) (w : World) :
  _lock self = false →
  create_session headless user_agent proxy width height self w
  = match expired_ids (time_source (env w) (clock_reads w)) self with
    | _ :: _ => (Block, set_lock true self, after_clock_read w)
    | [] =>
        if (Z.of_nat (size (sessions self)) >=? max_sessions self)%Z
        then (Raise (PoolExhausted (max_sessions self)), self, after_clock_read w)
        else
          match initialize headless user_agent proxy width height
                  (new_session w) (world_at_initialize w) with
          | (Ret _, session, w1) =>
              (Ret (session_id (new_session w)),
               set_sessions (<[session_id (new_session w) := session]> (sessions self)) self,
               with_log (log w1 ++ [{| log_level := INFO; log_line := 411;
                                       log_exc := None |}]) w1)
          | (Raise e, session, w1) =>
              (Raise e, self,
               world_of
                 (close session
                    (with_log (log w1 ++ [{| log_level := ERROR; log_line := 414;
                                             log_exc := Some e |}]) w1)))
          | (Block, _, w1) => (Block, set_lock true self, w1)
          end
    end.
Proof.
  intros Hl. unfold create_session, async_with_lock. rewrite Hl.
  unfold mbind, M_bind. rewrite cleanup_with_lock_held by done.
  destruct self as [m mx tm lk]. cbn in Hl. subst lk.
  destruct (expired_ids _ _); [|done].
  unfold get, BrowserSession_init, uuid4_str, time_time, run_on, call_on,
    modify, logger, raise, block, mbind, M_bind, mret, M_ret, PoolExhausted,
    after_clock_read, world_at_initialize, new_session.
  cbn.
  destruct (_ >=? _)%Z; [done|].
  destruct (initialize _ _ _ _ _ _ _) as [[[ok|e|] session] w1]; cbn; [done| |done].
  match goal with
  | |- context [close session ?w0] =>
      pose proof (close_returns session w0) as Hc; unfold outcome_of in Hc;
      destruct (close session w0) as [[r s'] w2]
  end.
  cbn in *. by subst r.
Qed.

Lemma size_alter (f : BrowserSession → BrowserSession) (sid : string)
    (m : gmap string BrowserSession) :
  size (alter f sid m) = size m.
Proof.
  rewrite <- !(size_dom (D := gset string)). by rewrite dom_alter_L.
Qed.

Lemma create_session_bounded (headless : bool) (user_agent : option string)
    (proxy : option (gmap string string)) (width height : Z)
    (self : BrowserPool) (w : World) :
  pool_bounded self →
  pool_bounded (state_of (create_session headless user_agent proxy width height self w)).
Proof.
  intros Hb. destruct (_lock self) eqn:Hl.
  - unfold create_session, async_with_lock. by rewrite Hl.
  - rewrite create_session_free by done.
    destruct (expired_ids _ _); [|done].
    rewrite Z.geb_leb.
    destruct (Z.leb_spec (max_sessions self) (Z.of_nat (size (sessions self))))
      as [Hfull|Hroom]; [done|].
    destruct (initialize _ _ _ _ _ _ _) as [[[ok|e|] session] w1]; [|done|done].
    unfold pool_bounded, state_of in *. cbn.
    rewrite map_size_insert. destruct (sessions self !! _); cbn; lia.
Qed.

Lemma close_session_bounded (sid : string) (self : BrowserPool) (w : World) :
  pool_bounded self → pool_bounded (state_of (close_session sid self w)).
Proof.
  intros Hb. destruct (_lock self) eqn:Hl.
  - by rewrite close_session_held.
  - rewrite close_session_free by done.
    destruct (sessions self !! sid) eqn:E; [|done].
    unfold pool_bounded, state_of in *. cbn.
    rewrite map_size_delete, E. cbn. lia.
Qed.

Lemma apply_op_bounded (op : PoolOp) (w : World) (self : BrowserPool) :
  pool_bounded self → pool_bounded (apply_op op w self).
Proof.
  destruct op; cbn.
  - apply create_session_bounded.
  - apply close_session_bounded.
  - unfold pool_bounded. cbn. by rewrite size_alter.
Qed.

Lemma run_ops_bounded (ops : list (PoolOp * World)) (self : BrowserPool) :
  pool_bounded self → pool_bounded (run_ops ops self).
Proof.
  revert self. induction ops as [|[op w] ops IH]; intros self Hb; [done|].
  cbn. apply IH. by apply apply_op_bounded.
Qed.

(** C1. Starting from a new pool of non-negative capacity, after any
    sequence of [create_session], [close_session] and session
    operations, made in any worlds, the pool holds at most
    [max_sessions] sessions.  And a [create_session] call whose sweep has
    returned, leaving [max_sessions] sessions or more registered, raises
    the capacity [RuntimeError], with the registered sessions as the
    sweep left them and the lock released. *)
Theorem pool_never_exceeds_max_sessions
    (max timeout : Z) (ops : list (PoolOp * World))
    (headless : bool) (user_agent : option string)
    (proxy : option (gmap string string)) (width height : Z)
    (self swept : BrowserPool) (w w1 : World)
    (Hmax : (0 <= max)%Z)
    (Hfree : _lock self = false)
    (Hsweep : _cleanup_expired_sessions (set_lock true self) w = (Ret tt, swept, w1))
    (Hfull : (Z.of_nat (size (sessions swept)) >= max_sessions swept)%Z) :
  pool_bounded (run_ops ops (BrowserPool_init max timeout))
  ∧ create_session headless user_agent proxy width height self w
    = (Raise (PoolExhausted (max_sessions self)), set_lock false swept, w1)
  ∧ sessions (set_lock false swept) = sessions swept.
Proof.
  split.
  - apply run_ops_bounded. unfold pool_bounded. cbn. rewrite map_size_empty. lia.
  - split; [|done].
    rewrite cleanup_with_lock_held in Hsweep by done.
    rewrite create_session_free by done.
    cbn in Hsweep. destruct (expired_ids _ _); [|done].
    injection Hsweep as <- <-. cbn in Hfull.
    destruct (Z.geb_spec (Z.of_nat (size (sessions self))) (max_sessions self)); [|lia].
    destruct self; cbn in *. by subst.
Qed.

Lemma pool_never_exceeds_max_sessions_witness :
  let w := sample_world obliging_engine 0 in
  let ops := [(OpCreate true None None 1920 1080, w);
              (OpCreate true None None 1920 1080, w);
              (OpClose "a", w)] in
  _cleanup_expired_sessions (set_lock true full_pool) w
  = (Ret tt, set_lock true full_pool, after_clock_read w)
  ∧ pool_bounded (run_ops ops (BrowserPool_init 1 3600))
  ∧ create_session true None None 1920 1080 full_pool w
    = (Raise (PoolExhausted 1), set_lock false (set_lock true full_pool),
       after_clock_read w).
Proof.
  assert (_cleanup_expired_sessions (set_lock true full_pool)
            (sample_world obliging_engine 0)
          = (Ret tt, set_lock true full_pool,
             after_clock_read (sample_world obliging_engine 0))) as Hs
    by (vm_compute; reflexivity).
  split; [exact Hs|].
  destruct (pool_never_exceeds_max_sessions 1 3600
              [(OpCreate true None None 1920 1080, sample_world obliging_engine 0);
               (OpCreate true None None 1920 1080, sample_world obliging_engine 0);
               (OpClose "a", sample_world obliging_engine 0)]
              true None None 1920 1080 full_pool (set_lock true full_pool)
              (sample_world obliging_engine 0)
              (after_clock_read (sample_world obliging_engine 0)))
    as (H1 & H2 & _); [lia | reflexivity | exact Hs | by vm_compute |].
  split; [exact H1 | exact H2].
Defined.

(** With the pool's lock free and some registered session expired at the
    clock reading of the sweep, [create_session] never returns: the sweep
    calls [close_session], which waits for the lock [create_session]
    holds.  Nothing is evicted and the lock stays held. *)
Lemma create_session_blocks_when_expired (headless : bool)
    (user_agent : option string) (proxy : option (gmap string string))
    (width height : Z) (self : BrowserPool) (w : World) (sid : string)
    (session : BrowserSession) :
  _lock self = false →
  sessions self !! sid = Some session →
  is_expired (time_source (env w) (clock_reads w)) (session_timeout self) session = true →
  create_session headless user_agent proxy width height self w
  = (Block, set_lock true self, after_clock_read w).
Proof.
  intros Hl Hs He. rewrite create_session_free by done.
  pose proof (expired_ids_nonempty _ _ _ _ Hs He) as Hne.
  by destruct (expired_ids _ _).
Qed.

Transparent initialize close.

(** C2, on the code.  A pool of capacity one holds one session, idle for
    4000 s with a timeout of 3600 s.  [create_session] does not evict it
    and does not return: the outcome is [Block], the expired session is
    still registered, no release call was made and the lock stays held,
    so that a later [close_session] blocks as well.  The sweep itself,
    run with the lock free, does evict the session. *)
Theorem create_session_blocks_on_expired_session :
  let w := sample_world obliging_engine 4000 in
  let r := create_session true None None 1920 1080 full_pool w in
  is_expired 4000 (session_timeout full_pool) live_session = true
  ∧ outcome_of r = Block
  ∧ sessions (state_of r) = sessions full_pool
  ∧ trace (world_of r) = []
  ∧ _lock (state_of r) = true
  ∧ outcome_of (close_session "s" (state_of r) w) = Block
  ∧ outcome_of (_cleanup_expired_sessions full_pool w) = Ret tt
  ∧ sessions (state_of (_cleanup_expired_sessions full_pool w)) = ∅.
Proof. vm_compute. repeat split. Qed.



(** ** NetworkInterceptor: what the callbacks leave alone *)

Lemma later_record_refl (a : InterceptedRequest) : later_record a a.
Proof. by repeat split. Qed.

Lemma later_record_trans (a b c : InterceptedRequest) :
  later_record a b → later_record b c → later_record a c.
Proof.
  intros (A1 & A2 & A3 & A4 & A5 & A6 & A7) (B1 & B2 & B3 & B4 & B5 & B6 & B7).
  repeat split; try congruence. intros d Hd. by apply B7, A7.
Qed.

Lemma later_record_answer (a : InterceptedRequest) (d : ResponseData) :
  req_response a = None → later_record a (set_response (Some d) a).
Proof. intros H. repeat split. intros d'. by rewrite H. Qed.

Lemma later_records_refl (l : list InterceptedRequest) : Forall2 later_record l l.
Proof. induction l; constructor; [apply later_record_refl | done]. Qed.

Lemma later_store_refl (l : list InterceptedRequest) : later_store l l.
Proof.
  exists l, []. split; [by rewrite app_nil_r | apply later_records_refl].
Qed.

Lemma later_store_trans (l1 l2 l3 : list InterceptedRequest) :
  later_store l1 l2 → later_store l2 l3 → later_store l1 l3.
Proof.
  intros (k1 & a1 & -> & H1) (k2 & a2 & -> & H2).
  apply Forall2_app_inv_l in H2 as (k2a & k2b & Ha & Hb & ->).
  exists k2a, (k2b ++ a2). split; [by rewrite app_assoc|].
  clear Hb. revert k2a Ha. induction H1 as [|x y l k Hxy Hlk IH]; intros k2a Ha.
  - by inversion Ha.
  - inversion Ha as [|? z ? k' Hyz Hk']; subst. constructor.
    + by eapply later_record_trans.
    + by apply IH.
Qed.

Lemma on_request_later_store (request : RequestEvent) (self : NetworkInterceptor)
    (w : World) :
  later_store (requests self) (requests (state_of (on_request request self w))).
Proof.
  destruct (on_request_result request self w) as (_ & _ & Hp & Hn).
  destruct (passes_filter_dec w (url_pattern self) (ev_url request)) as [H|H].
  - rewrite (Hp H). eexists (requests self), _. split; [done|].
    apply later_records_refl.
  - rewrite (Hn H). apply later_store_refl.
Qed.

Lemma on_response_state (response : ResponseEvent) (self : NetworkInterceptor)
    (w : World) :
  url_pattern (state_of (on_response response self w)) = url_pattern self
  ∧ (requests (state_of (on_response response self w)) = requests self
     ∨ ∃ l x r, requests self = l ++ x :: r ∧ req_response x = None
         ∧ requests (state_of (on_response response self w))
           = l ++ set_response (Some (recorded_response w response)) x :: r).
Proof.
  destruct (passes_filter_dec w (url_pattern self) (rv_url response)) as [Hp|Hp].
  - destruct (first_unanswered (rv_url response) (requests self))
      as [Hn|(l & x & r & Hs & Hl & Hx)].
    + rewrite on_response_skips by done. split; [done|by left].
    + rewrite (on_response_fills response self w l r x) by done. split; [done|].
      right. exists l, x, r. split; [done|]. split; [apply Hx|done].
  - rewrite (proj2 (on_response_blocked _ _ _ Hp)). split; [done|by left].
Qed.

Lemma on_response_later_store (response : ResponseEvent) (self : NetworkInterceptor)
    (w : World) :
  later_store (requests self) (requests (state_of (on_response response self w))).
Proof.
  destruct (on_response_state response self w) as (_ & [-> | (l & x & r & Hs & Hx & ->)]).
  - apply later_store_refl.
  - rewrite Hs. eexists _, []. split; [by rewrite app_nil_r|].
    apply Forall2_app; [apply later_records_refl|].
    constructor; [by apply later_record_answer | apply later_records_refl].
Qed.

Lemma same_request_refl (a : InterceptedRequest) : same_request a a.
Proof. by repeat split. Qed.

Lemma same_request_trans (a b c : InterceptedRequest) :
  same_request a b → same_request b c → same_request a c.
Proof.
  intros (A1 & A2 & A3 & A4 & A5 & A6 & A7) (B1 & B2 & B3 & B4 & B5 & B6 & B7).
  repeat split; try congruence. intros Hc. by apply A7, B7.
Qed.

Lemma later_record_same_request (a b : InterceptedRequest) :
  later_record a b → same_request a b.
Proof.
  intros (A1 & A2 & A3 & A4 & A5 & A6 & A7). repeat split; try done.
  intros Hb. destruct (req_response a) as [d|] eqn:E; [|done].
  specialize (A7 d eq_refl). congruence.
Qed.

Lemma grown_store_refl (l : list InterceptedRequest) : grown_store l l.
Proof.
  exists l, []. split; [by rewrite app_nil_r|].
  induction l; constructor; [apply same_request_refl | done].
Qed.

Lemma grown_store_trans (l1 l2 l3 : list InterceptedRequest) :
  grown_store l1 l2 → grown_store l2 l3 → grown_store l1 l3.
Proof.
  intros (k1 & a1 & -> & H1) (k2 & a2 & -> & H2).
  apply Forall2_app_inv_l in H2 as (k2a & k2b & Ha & Hb & ->).
  exists k2a, (k2b ++ a2). split; [by rewrite app_assoc|].
  clear Hb. revert k2a Ha. induction H1 as [|x y l k Hxy Hlk IH]; intros k2a Ha.
  - by inversion Ha.
  - inversion Ha as [|? z ? k' Hyz Hk']; subst. constructor.
    + by eapply same_request_trans.
    + by apply IH.
Qed.

Lemma later_store_grown_store (l1 l2 : list InterceptedRequest) :
  later_store l1 l2 → grown_store l1 l2.
Proof.
  intros (k & a & -> & H). exists k, a. split; [done|].
  induction H; constructor; [by apply later_record_same_request | done].
Qed.

(** The write of [on_response_store] keeps every record in place with
    its request side; only the slot at [i] changes, to a response. *)
Lemma on_response_store_grown_store (response : ResponseEvent) (i : nat)
    (self : NetworkInterceptor) (w : World) :
  grown_store (requests self)
    (requests (state_of (on_response_store response i self w)))
  ∧ url_pattern (state_of (on_response_store response i self w))
    = url_pattern self.
Proof.
  rewrite on_response_store_result. cbn. split; [|done].
  exists (alter (set_response (Some (recorded_response w response))) i
            (requests self)), [].
  split; [by rewrite app_nil_r|].
  generalize (requests self) as l. clear. intros l. revert i.
  induction l as [|a l IH]; intros [|i]; cbn; try constructor;
    try apply same_request_refl; try apply IH.
  - by repeat split.
  - clear. induction l; constructor; [apply same_request_refl | done].
Qed.

(** X1. Over any interleaving of the callbacks, runs of [on_response]
    that overlap included, the store only grows: every record present
    before is still at its position afterwards with the same id, URL,
    method, headers, post data and timestamp, a slot that held a response
    still holds one, and the filter is untouched.  When no run of
    [on_response] is resumed after other steps, a response that was
    stored is moreover never replaced. *)
Theorem callbacks_only_append_and_answer
    (evs : list (InterceptorEvent * World)) (self : NetworkInterceptor) :
  grown_store (requests self) (requests (observe_all evs self))
  ∧ url_pattern (observe_all evs self) = url_pattern self
  ∧ (forallb (fun step => is_whole_run step.1) evs = true →
     later_store (requests self) (requests (observe_all evs self))).
Proof.
  revert self. induction evs as [|[ev w] evs IH]; intros self.
  - split; [apply grown_store_refl|]. split; [done|]. intros _.
    apply later_store_refl.
  - cbn [observe_all forallb fst].
    destruct (IH (state_of (observe ev self w))) as (IH1 & IH2 & IH3).
    destruct ev as [request|response|response i]; cbn [observe is_whole_run] in *.
    + split; [|split].
      * eapply grown_store_trans; [|exact IH1].
        apply later_store_grown_store, on_request_later_store.
      * rewrite IH2. apply on_request_result.
      * intros Hw. eapply later_store_trans; [apply on_request_later_store|].
        by apply IH3.
    + split; [|split].
      * eapply grown_store_trans; [|exact IH1].
        apply later_store_grown_store, on_response_later_store.
      * rewrite IH2. apply on_response_state.
      * intros Hw. eapply later_store_trans; [apply on_response_later_store|].
        by apply IH3.
    + split; [|split].
      * eapply grown_store_trans; [|exact IH1].
        apply on_response_store_grown_store.
      * rewrite IH2. apply on_response_store_grown_store.
      * done.
Qed.

Lemma on_response_pick_passes (response : ResponseEvent) (self : NetworkInterceptor)
    (w : World) :
  passes_filter w (url_pattern self) (rv_url response) →
  on_response_pick response self w
  = (Ret (first_awaiting (rv_url response) (requests self)), self, w).
Proof.
  intros Hp. unfold on_response_pick, mbind, M_bind, get.
  by rewrite (filtered_out_passes w _ _ self Hp).
Qed.

(** X27. Two runs of [on_response] that overlap fill one record.  With
    two records awaiting a response from the same URL, a second response
    that arrives while the run for the first is suspended at [await
    response.body()] picks the record the first run picked.  After both
    runs have stored, that record holds what the run that stored last
    wrote, and the second record is still without a response. *)
Theorem overlapping_responses_fill_one_record
    (self : NetworkInterceptor) (w1 w2 w3 w4 : World)
    (first second : ResponseEvent)
    (pre mid post : list InterceptedRequest) (a b : InterceptedRequest)
    (Hstore : requests self = pre ++ a :: mid ++ b :: post)
    (Hpre : Forall (fun r => ¬ unanswered (rv_url first) r) pre)
    (Ha : unanswered (rv_url first) a)
    (Hb : unanswered (rv_url first) b)
    (Hurl : rv_url second = rv_url first)
    (Hpass1 : passes_filter w1 (url_pattern self) (rv_url first))
    (Hpass2 : passes_filter w2 (url_pattern self) (rv_url second)) :
  let i := length pre in
  let stored_first := state_of (on_response_store first i self w3) in
  let stored_both := state_of (on_response_store second i stored_first w4) in
  on_response_pick first self w1 = (Ret (Some i), self, w1)
  ∧ on_response_pick second self w2 = (Ret (Some i), self, w2)
  ∧ requests stored_first
    = pre ++ set_response (Some (recorded_response w3 first)) a :: mid ++ b :: post
  ∧ requests stored_both
    = pre ++ set_response (Some (recorded_response w4 second)) a :: mid ++ b :: post
  ∧ unanswered (rv_url second) b.
Proof.
  cbv zeta.
  rewrite !on_response_pick_passes by done.
  rewrite Hurl, Hstore, first_awaiting_split by done.
  rewrite !on_response_store_result. unfold state_of. cbn [fst snd requests].
  rewrite Hstore, !alter_at_split. repeat split; first [done | apply Hb].
Qed.

Lemma overlapping_responses_fill_one_record_witness :
  let w := sample_world obliging_engine 0 in
  let self := {| requests := [pending "1" "/api/x"; pending "2" "/api/x"];
                 url_pattern := None |} in
  let first := sample_response "/api/x" 200 (inr (EngineError 3)) in
  let second := sample_response "/api/x" 404 (inr (EngineError 3)) in
  (req_response <$>
     requests (state_of (on_response_store second 0
                 (state_of (on_response_store first 0 self w)) w)))
  = [Some {| resp_status_code := 404; resp_headers := ∅; resp_body := None |}; None].
Proof.
  destruct (overlapping_responses_fill_one_record
              {| requests := [pending "1" "/api/x"; pending "2" "/api/x"];
                 url_pattern := None |}
              (sample_world obliging_engine 0) (sample_world obliging_engine 0)
              (sample_world obliging_engine 0) (sample_world obliging_engine 0)
              (sample_response "/api/x" 200 (inr (EngineError 3)))
              (sample_response "/api/x" 404 (inr (EngineError 3)))
              [] [] [] (pending "1" "/api/x") (pending "2" "/api/x")
              eq_refl (Forall_nil_2 _) (conj eq_refl eq_refl) (conj eq_refl eq_refl)
              eq_refl (or_introl eq_refl) (or_introl eq_refl))
    as (_ & _ & _ & H & _).
  cbv zeta. cbn [length] in H. rewrite H. reflexivity.
Defined.

(** X2. A response for which the store has no record awaiting it (in
    particular any response on an empty store) changes nothing in the
    interceptor; when the filter lets it through, the body is not even
    fetched: the world is unchanged as well. *)
Theorem response_without_request_is_dropped
    (response : ResponseEvent) (self : NetworkInterceptor) (w : World)
    (Hnone : Forall (fun r => ¬ unanswered (rv_url response) r) (requests self)) :
  state_of (on_response response self w) = self
  ∧ (passes_filter w (url_pattern self) (rv_url response) →
     on_response response self w = (Ret tt, self, w)).
Proof.
  assert (passes_filter w (url_pattern self) (rv_url response) →
          on_response response self w = (Ret tt, self, w)) as Hpass.
  { intros Hp. by rewrite on_response_skips. }
  split; [|exact Hpass].
  destruct (passes_filter_dec w (url_pattern self) (rv_url response)) as [Hp|Hp].
  - by rewrite Hpass.
  - by apply on_response_blocked.
Qed.

Lemma response_without_request_is_dropped_witness :
  let w := sample_world obliging_engine 0 in
  let response := sample_response "/api/x" 200 (inr (EngineError 3)) in
  on_response response NetworkInterceptor_init w = (Ret tt, NetworkInterceptor_init, w).
Proof.
  apply (response_without_request_is_dropped
           (sample_response "/api/x" 200 (inr (EngineError 3)))
           NetworkInterceptor_init (sample_world obliging_engine 0)).
  - constructor.
  - left. reflexivity.
Defined.

(** X3. With a non-empty pattern set that [re.search] does not find in
    the URL, a request to that URL is not recorded and a response from
    it fills nothing: both callbacks return with the interceptor and the
    world exactly as they were (no uuid drawn, no clock read, no log). *)
Theorem unmatched_url_is_filtered_out
    (self : NetworkInterceptor) (w : World) (p : string)
    (request : RequestEvent) (response : ResponseEvent)
    (Hpattern : url_pattern self = Some p)
    (Hnonempty : str_truthy p = true)
    (Hreq : re_search (env w) p (ev_url request) = Some false)
    (Hresp : re_search (env w) p (rv_url response) = Some false) :
  on_request request self w = (Ret tt, self, w)
  ∧ on_response response self w = (Ret tt, self, w).
Proof.
  unfold on_request, on_response, on_response_pick, filtered_out. run_monad.
  by rewrite Hpattern, Hnonempty, Hreq, Hresp.
Qed.

Lemma unmatched_url_is_filtered_out_witness :
  let w := sample_world obliging_engine 0 in
  let self := {| requests := [pending "1" "/api/x"]; url_pattern := Some "/api/" |} in
  on_request (sample_request "/other" "GET" None) self w = (Ret tt, self, w)
  ∧ on_response (sample_response "/other" 200 (inl [])) self w = (Ret tt, self, w).
Proof.
  apply (unmatched_url_is_filtered_out
           {| requests := [pending "1" "/api/x"]; url_pattern := Some "/api/" |}
           (sample_world obliging_engine 0) "/api/"
           (sample_request "/other" "GET" None)
           (sample_response "/other" 200 (inl [])));
    reflexivity.
Defined.

(** X4. With a non-empty pattern on which [re.search] raises (an invalid
    regular expression), interception is silently off: every request and
    every response callback returns normally, leaves the store as it was
    and only writes an error record to the log. *)
Theorem invalid_pattern_disables_interception
    (self : NetworkInterceptor) (w : World) (p : string)
    (request : RequestEvent) (response : ResponseEvent)
    (Hpattern : url_pattern self = Some p)
    (Hnonempty : str_truthy p = true)
    (Hinvalid : ∀ url, re_search (env w) p url = None) :
  on_request request self w
  = (Ret tt, self,
     with_log (log w ++ [{| log_level := ERROR; log_line := 57;
                            log_exc := Some (ReError p) |}]) w)
  ∧ on_response response self w
    = (Ret tt, self,
       with_log (log w ++ [{| log_level := ERROR; log_line := 84;
                              log_exc := Some (ReError p) |}]) w).
Proof.
  unfold on_request, on_response, on_response_pick, filtered_out. run_monad.
  by rewrite Hpattern, Hnonempty, !Hinvalid.
Qed.

Lemma invalid_pattern_disables_interception_witness :
  let w := sample_world obliging_engine 0 in
  let self := {| requests := [pending "1" "/api/x"]; url_pattern := Some "(" |} in
  state_of (on_request (sample_request "/api/x" "GET" None) self w) = self
  ∧ state_of (on_response (sample_response "/api/x" 200 (inl [])) self w) = self.
Proof.
  destruct (invalid_pattern_disables_interception
              {| requests := [pending "1" "/api/x"]; url_pattern := Some "(" |}
              (sample_world obliging_engine 0) "("
              (sample_request "/api/x" "GET" None)
              (sample_response "/api/x" 200 (inl []))
              eq_refl eq_refl (fun _ => eq_refl)) as [H1 H2].
  cbv zeta. by rewrite H1, H2.
Defined.

(** ** NetworkInterceptor: what callers can see *)

Lemma populated_filter_app (l k : list InterceptedRequest) :
  List.filter (fun req => response_truthy (req_response req)) (l ++ k)
  = List.filter (fun req => response_truthy (req_response req)) l
    ++ List.filter (fun req => response_truthy (req_response req)) k.
Proof. apply List.filter_app. Qed.

(** X5. [clear] empties the store and keeps the filter; nothing is
    visible afterwards, the world is untouched, and a response that
    arrives later for a request recorded before the clear is dropped.
    [clear_network_requests] does this to the session's interceptor and
    changes nothing else in the session. *)
Theorem clear_forgets_pending_requests
    (session : BrowserSession) (w : World) :
  let self := network_interceptor session in
  let cleared := state_of (clear self w) in
  clear self w = (Ret tt, cleared, w)
  ∧ get_requests cleared = []
  ∧ url_pattern cleared = url_pattern self
  ∧ (∀ response w2, state_of (on_response response cleared w2) = cleared)
  ∧ clear_network_requests session w
    = (Ret tt, set_network_interceptor cleared session, w).
Proof.
  cbv zeta. unfold clear_network_requests, on_interceptor, clear. run_monad.
  repeat split.
  intros response w2.
  destruct (on_response_state response
              {| requests := []; url_pattern := url_pattern (network_interceptor session) |}
              w2) as (Hp & [Hr | (l & x & r & Hs & _)]).
  - unfold state_of in *.
    destruct ((on_response _ _ _).1.2) as [rs pat]. cbn in *. by subst.
  - by destruct l.
Qed.

(** X6. [get_network_requests] returns the populated records of the
    session's interceptor whatever pattern it is given: the pattern is
    not applied to the records already stored.  A non-empty pattern
    replaces the interceptor's filter (for the events to come); no
    pattern, or the empty one, leaves the filter as it is.  The call
    needs no initialized session and touches neither the world nor
    [last_activity]. *)
Theorem get_network_requests_ignores_pattern_for_result
    (pattern : option string) (session : BrowserSession) (w : World) :
  let self := network_interceptor session in
  get_network_requests pattern session w
  = (Ret (get_requests self),
     set_network_interceptor
       {| requests := requests self;
          url_pattern := if opt_str_truthy pattern then pattern else url_pattern self |}
       session,
     w).
Proof.
  cbv zeta. unfold get_network_requests, on_interceptor, set_url_pattern, get_requests.
  run_monad. destruct pattern as [p|]; cbn.
  - destruct (str_truthy p) eqn:E; cbn; [done|].
    by destruct session as [? ? ? ? ? [? ?] ? ? ?].
  - by destruct session as [? ? ? ? ? [? ?] ? ? ?].
Qed.

(** X7. A request that was just observed is invisible to callers:
    [get_requests] returns the same list after [on_request] as before,
    whether or not the request was recorded. *)
Theorem pending_request_is_invisible
    (request : RequestEvent) (self : NetworkInterceptor) (w : World) :
  get_requests (state_of (on_request request self w)) = get_requests self.
Proof.
  destruct (on_request_result request self w) as (_ & _ & Hp & Hn).
  unfold get_requests.
  destruct (passes_filter_dec w (url_pattern self) (ev_url request)) as [H|H].
  - rewrite (Hp H), populated_filter_app. cbn. by rewrite app_nil_r.
  - by rewrite (Hn H).
Qed.



(** ** BrowserSession: what the operations change *)

(** X9. Whatever its outcome, none of the ten session operations changes
    the session id, the four handles, the interceptor or the creation
    time; and, [set_extra_headers] apart, none changes the accumulated
    headers. *)
Theorem operations_keep_session_resources (self : BrowserSession) (w : World) :
  (∀ url timeout,
     same_resources self (state_of (navigate url timeout self w))
     ∧ custom_headers (state_of (navigate url timeout self w)) = custom_headers self)
  ∧ (∀ script,
       same_resources self (state_of (execute_script script self w))
       ∧ custom_headers (state_of (execute_script script self w)) = custom_headers self)
  ∧ (same_resources self (state_of (get_content self w))
     ∧ custom_headers (state_of (get_content self w)) = custom_headers self)
  ∧ (∀ selector timeout,
       same_resources self (state_of (wait_for_selector selector timeout self w))
       ∧ custom_headers (state_of (wait_for_selector selector timeout self w))
         = custom_headers self)
  ∧ (∀ selector,
       same_resources self (state_of (click selector self w))
       ∧ custom_headers (state_of (click selector self w)) = custom_headers self)
  ∧ (∀ selector text,
       same_resources self (state_of (type_text selector text self w))
       ∧ custom_headers (state_of (type_text selector text self w)) = custom_headers self)
  ∧ (∀ selector full_page,
       same_resources self (state_of (screenshot selector full_page self w))
       ∧ custom_headers (state_of (screenshot selector full_page self w))
         = custom_headers self)
  ∧ (∀ headers, same_resources self (state_of (set_extra_headers headers self w)))
  ∧ (∀ cookies,
       same_resources self (state_of (set_cookies cookies self w))
       ∧ custom_headers (state_of (set_cookies cookies self w)) = custom_headers self)
  ∧ (∀ url,
       same_resources self (state_of (get_cookies url self w))
       ∧ custom_headers (state_of (get_cookies url self w)) = custom_headers self).
Proof.
  unfold_operations. unfold same_resources. run_monad.
  repeat split; intros; op_cases; reflexivity.
Qed.

(** X10. An operation that raises has not touched the session: for
    [execute_script], [get_content], [wait_for_selector], [click],
    [type_text], [screenshot], [set_cookies] and [get_cookies] the
    session after a raised exception is the session before, so a failed
    call does not count as activity. *)
Theorem failed_operation_leaves_session_untouched
    (self : BrowserSession) (w : World) (e : exn) :
  (∀ script, outcome_of (execute_script script self w) = Raise e →
             state_of (execute_script script self w) = self)
  ∧ (outcome_of (get_content self w) = Raise e → state_of (get_content self w) = self)
  ∧ (∀ selector timeout,
       outcome_of (wait_for_selector selector timeout self w) = Raise e →
       state_of (wait_for_selector selector timeout self w) = self)
  ∧ (∀ selector, outcome_of (click selector self w) = Raise e →
                 state_of (click selector self w) = self)
  ∧ (∀ selector text, outcome_of (type_text selector text self w) = Raise e →
                      state_of (type_text selector text self w) = self)
  ∧ (∀ selector full_page,
       outcome_of (screenshot selector full_page self w) = Raise e →
       state_of (screenshot selector full_page self w) = self)
  ∧ (∀ cookies, outcome_of (set_cookies cookies self w) = Raise e →
                state_of (set_cookies cookies self w) = self)
  ∧ (∀ url, outcome_of (get_cookies url self w) = Raise e →
            state_of (get_cookies url self w) = self).
Proof.
  unfold_operations. run_monad.
  repeat split; intros; revert H; op_cases; intros H; (reflexivity || discriminate).
Qed.

Lemma failed_operation_leaves_session_untouched_witness :
  let w := sample_world failing_engine 0 in
  outcome_of (click "#go" live_session w) = Raise (EngineError 7)
  ∧ state_of (click "#go" live_session w) = live_session.
Proof.
  assert (outcome_of (click "#go" live_session (sample_world failing_engine 0))
          = Raise (EngineError 7)) as Hr by reflexivity.
  split; [exact Hr|].
  destruct (failed_operation_leaves_session_untouched live_session
              (sample_world failing_engine 0) (EngineError 7))
    as (_ & _ & _ & H & _).
  by apply H.
Defined.

(** X11. [set_extra_headers] merges before it applies: when the call on
    an initialized session raises (the engine refused the headers), the
    new headers are in [custom_headers] all the same, and
    [last_activity] is not refreshed. *)
Theorem failed_set_extra_headers_keeps_the_merge
    (headers : gmap string string) (self : BrowserSession) (w : World) (e : exn)
    (Hinit : truthy (context self) = true)
    (Hraise : outcome_of (set_extra_headers headers self w) = Raise e) :
  state_of (set_extra_headers headers self w)
  = set_custom_headers (headers ∪ custom_headers self) self
  ∧ engine (env w) (trace w)
      (ContextSetExtraHTTPHeaders (context self) (headers ∪ custom_headers self))
    = CapRaise e.
Proof.
  revert Hraise. unfold set_extra_headers. run_monad. rewrite Hinit. cbn.
  destruct (engine _ _ _) eqn:He; cbn; intros H; [discriminate|].
  by injection H as ->.
Qed.

Lemma failed_set_extra_headers_keeps_the_merge_witness :
  let w := sample_world failing_engine 0 in
  let headers : gmap string string := {[ "X-Trace" := "1" ]} in
  outcome_of (set_extra_headers headers live_session w) = Raise (EngineError 7)
  ∧ custom_headers (state_of (set_extra_headers headers live_session w))
    = headers ∪ ∅.
Proof.
  assert (outcome_of (set_extra_headers {[ "X-Trace" := "1" ]} live_session
                        (sample_world failing_engine 0))
          = Raise (EngineError 7)) as Hr by reflexivity.
  split; [exact Hr|].
  destruct (failed_set_extra_headers_keeps_the_merge
              {[ "X-Trace" := "1" ]} live_session (sample_world failing_engine 0)
              (EngineError 7) eq_refl Hr) as [H _].
  cbv zeta. by rewrite H.
Defined.

(** X12. An operation that returns has refreshed [last_activity]: after
    any of the ten operations returns normally, the session's
    [last_activity] is the clock reading taken during the call. *)
Theorem returned_operation_refreshes_last_activity
    (self : BrowserSession) (w : World) :
  (∀ url timeout v, outcome_of (navigate url timeout self w) = Ret v →
     last_activity (state_of (navigate url timeout self w)) = clock_now w)
  ∧ (∀ script v, outcome_of (execute_script script self w) = Ret v →
       last_activity (state_of (execute_script script self w)) = clock_now w)
  ∧ (∀ v, outcome_of (get_content self w) = Ret v →
       last_activity (state_of (get_content self w)) = clock_now w)
  ∧ (∀ selector timeout v,
       outcome_of (wait_for_selector selector timeout self w) = Ret v →
       last_activity (state_of (wait_for_selector selector timeout self w)) = clock_now w)
  ∧ (∀ selector v, outcome_of (click selector self w) = Ret v →
       last_activity (state_of (click selector self w)) = clock_now w)
  ∧ (∀ selector text v, outcome_of (type_text selector text self w) = Ret v →
       last_activity (state_of (type_text selector text self w)) = clock_now w)
  ∧ (∀ selector full_page v,
       outcome_of (screenshot selector full_page self w) = Ret v →
       last_activity (state_of (screenshot selector full_page self w)) = clock_now w)
  ∧ (∀ headers v, outcome_of (set_extra_headers headers self w) = Ret v →
       last_activity (state_of (set_extra_headers headers self w)) = clock_now w)
  ∧ (∀ cookies v, outcome_of (set_cookies cookies self w) = Ret v →
       last_activity (state_of (set_cookies cookies self w)) = clock_now w)
  ∧ (∀ url v, outcome_of (get_cookies url self w) = Ret v →
       last_activity (state_of (get_cookies url self w)) = clock_now w).
Proof.
  unfold_operations. unfold clock_now. run_monad.
  repeat split; intros; revert H; op_cases; intros H; (reflexivity || discriminate).
Qed.

Lemma returned_operation_refreshes_last_activity_witness :
  let w := sample_world obliging_engine 77 in
  outcome_of (get_content live_session w) = Ret (VObj 1)
  ∧ last_activity (state_of (get_content live_session w)) = clock_now w.
Proof.
  assert (outcome_of (get_content live_session (sample_world obliging_engine 77))
          = Ret (VObj 1)) as Hr by reflexivity.
  split; [exact Hr|].
  destruct (returned_operation_refreshes_last_activity live_session
              (sample_world obliging_engine 77)) as (_ & _ & H & _).
  by apply (H (VObj 1)).
Defined.

(** X13. An empty string is no argument: [screenshot] with the selector
    "" takes the page screenshot, [get_cookies] with the URL "" asks for
    all cookies, and [get_network_requests] with the pattern "" leaves
    the filter alone, each exactly as when the argument is absent. *)
Theorem empty_string_argument_is_absent (self : BrowserSession) (w : World) :
  (∀ full_page, screenshot (Some "") full_page self w = screenshot None full_page self w)
  ∧ get_cookies (Some "") self w = get_cookies None self w
  ∧ get_network_requests (Some "") self w = get_network_requests None self w.
Proof. repeat split. Qed.

(** X14. [screenshot] with a selector that matches no element: the page
    is queried once, no screenshot call is made, the call raises
    [ValueError] for that selector, logs it, and leaves the session
    unchanged. *)
Theorem screenshot_of_missing_element_raises
    (selector : string) (full_page : bool) (self : BrowserSession) (w : World)
    (answer : value)
    (Hinit : truthy (page self) = true)
    (Hselector : str_truthy selector = true)
    (Hquery : engine (env w) (trace w) (PageQuerySelector (page self) selector)
              = CapOk answer)
    (Hmissing : truthy answer = false) :
  screenshot (Some selector) full_page self w
  = (Raise (ValueError selector), self,
     with_log (log w ++ [{| log_level := ERROR; log_line := 300;
                            log_exc := Some (ValueError selector) |}])
       (with_trace (trace w ++ [PageQuerySelector (page self) selector]) w)).
Proof.
  unfold screenshot. run_monad. rewrite Hinit. cbn.
  by rewrite Hselector, Hquery, Hmissing.
Qed.

Lemma screenshot_of_missing_element_raises_witness :
  let w := sample_world no_element_engine 0 in
  outcome_of (screenshot (Some "#login") false live_session w)
  = Raise (ValueError "#login")
  ∧ trace (world_of (screenshot (Some "#login") false live_session w))
    = [PageQuerySelector (VObj 4) "#login"].
Proof.
  cbv zeta.
  rewrite (screenshot_of_missing_element_raises "#login" false live_session
             (sample_world no_element_engine 0) VNone
             eq_refl eq_refl eq_refl eq_refl).
  split; reflexivity.
Defined.

(** ** BrowserSession: closing twice, and failing to start *)

Lemma close_without_handles (self : BrowserSession) (w : World) :
  release_plan self = [] →
  close self w
  = (Ret tt, self,
     with_log (log w ++ [{| log_level := INFO; log_line := 373; log_exc := None |}]) w).
Proof.
  unfold release_plan, close. run_monad.
  destruct (truthy (page self)), (truthy (context self)),
    (truthy (browser self)), (truthy (playwright self)); cbn; intros H;
    (discriminate || reflexivity).
Qed.

Lemma close_on_obliging_engine (self : BrowserSession) (w : World) :
  releases_succeed (env w) →
  close self w
  = (Ret tt, released self,
     with_log (log w ++ [{| log_level := INFO; log_line := 373; log_exc := None |}])
       (with_trace (trace w ++ release_plan self) w)).
Proof.
  intros Hok. unfold close, release_plan, released. run_monad.
  destruct self as [sid b c p d ni ch ca la]. cbn.
  destruct (truthy p) eqn:Hp, (truthy c) eqn:Hc, (truthy b) eqn:Hb,
    (truthy d) eqn:Hd;
    repeat (cbn; rewrite ?Hp, ?Hc, ?Hb, ?Hd;
            try match goal with
                | |- context [match engine ?e ?t ?k with _ => _ end] =>
                    destruct (Hok t k eq_refl) as [? ->]
                end);
    cbn; rewrite <- ?app_assoc, ?app_nil_r; cbn;
    try reflexivity; by destruct w.
Qed.

Lemma released_has_no_plan (self : BrowserSession) : release_plan (released self) = [].
Proof.
  unfold release_plan, released. cbn.
  by destruct (truthy (page self)) eqn:Hp, (truthy (context self)) eqn:Hc,
    (truthy (browser self)) eqn:Hb, (truthy (playwright self)) eqn:Hd;
    rewrite ?Hp, ?Hc, ?Hb, ?Hd.
Qed.

(** X15. Closing twice releases once.  On an engine that accepts the
    release calls, [close] makes the release calls of the handles that are set, in
    the order page, context, browser, driver, and clears them; a second
    [close], in any world, then makes no engine call and leaves the
    session as it is.  The same holds for a session that never had a
    handle. *)
Theorem close_twice_releases_once (self : BrowserSession) (w w2 : World)
    (Hok : releases_succeed (env w)) :
  let closed := state_of (close self w) in
  trace (world_of (close self w)) = trace w ++ release_plan self
  ∧ release_plan closed = []
  ∧ close closed w2
    = (Ret tt, closed,
       with_log (log w2 ++ [{| log_level := INFO; log_line := 373;
                               log_exc := None |}]) w2).
Proof.
  cbv zeta. rewrite (close_on_obliging_engine self w Hok).
  split; [done|]. split; [apply released_has_no_plan|].
  apply close_without_handles, released_has_no_plan.
Qed.

Lemma close_twice_releases_once_witness :
  let w := sample_world obliging_engine 0 in
  releases_succeed (env w)
  ∧ trace (world_of (close live_session w))
    = [PageClose (VObj 4); ContextClose (VObj 3); BrowserClose (VObj 2);
       PlaywrightStop (VObj 1)]
  ∧ trace (world_of (close (state_of (close live_session w)) w)) = [].
Proof.
  assert (releases_succeed (env (sample_world obliging_engine 0))) as Hok.
  { intros hist c _. destruct c; eexists; reflexivity. }
  split; [exact Hok|].
  destruct (close_twice_releases_once live_session (sample_world obliging_engine 0)
              (sample_world obliging_engine 0) Hok) as (H1 & _ & H3).
  cbv zeta. rewrite H1, H3. split; reflexivity.
Defined.

Lemma call_before_or_within (A R made rest : list CapCall) (c : CapCall) :
  A ++ R = made ++ c :: rest →
  (∃ rest', A = made ++ c :: rest' ∧ rest = rest' ++ R) ∨ c ∈ R.
Proof.
  revert made. induction A as [|a A IH]; intros made H.
  - right. cbn in H. rewrite H. apply elem_of_app. right. apply list_elem_of_here.
  - destruct made as [|m made]; cbn in H; injection H as -> H.
    + left. by exists A.
    + destruct (IH made H) as [(rest' & -> & ->)|Hin]; [left|by right].
      by exists rest'.
Qed.

Lemma release_plan_is_release (self : BrowserSession) (c : CapCall) :
  c ∈ release_plan self → is_release c = true.
Proof.
  unfold release_plan.
  destruct (truthy (page self)), (truthy (context self)),
    (truthy (browser self)), (truthy (playwright self)); cbn;
    rewrite ?elem_of_cons, ?elem_of_nil; intros H;
    repeat destruct H as [H|H]; by subst.
Qed.

Lemma release_of_release (c : CapCall) (v : value) :
  is_release c = true → release_of c v = None.
Proof. by destruct c. Qed.

Lemma release_plan_owes (self : BrowserSession) :
  (truthy (page self) = true → PageClose (page self) ∈ release_plan self)
  ∧ (truthy (context self) = true → ContextClose (context self) ∈ release_plan self)
  ∧ (truthy (browser self) = true → BrowserClose (browser self) ∈ release_plan self)
  ∧ (truthy (playwright self) = true →
     PlaywrightStop (playwright self) ∈ release_plan self).
Proof.
  unfold release_plan.
  repeat split; intros ->; rewrite !elem_of_app, ?elem_of_cons; auto 10.
Qed.

(** X16. A failed [initialize] does not leak: when it raises and the
    engine accepts the release calls, every driver, browser, context and
    page the engine handed out during the call has been released by a
    later call of the same run, the session is left with no handle set,
    so it has nothing left to release, and [last_activity] is as it
    was. *)
Theorem failed_initialize_leaves_no_handle
    (headless : bool) (user_agent : option string)
    (proxy : option (gmap string string)) (width height : Z)
    (self : BrowserSession) (w : World) (e : exn)
    (Hok : releases_succeed (env w))
    (Hraise : outcome_of (initialize headless user_agent proxy width height self w)
              = Raise e) :
  (∀ made c rest v rel,
     trace (world_of (initialize headless user_agent proxy width height self w))
     = trace w ++ made ++ c :: rest →
     engine (env w) (trace w ++ made) c = CapOk v →
     truthy v = true →
     release_of c v = Some rel →
     rel ∈ rest)
  ∧ release_plan (state_of (initialize headless user_agent proxy width height self w)) = []
  ∧ last_activity (state_of (initialize headless user_agent proxy width height self w))
    = last_activity self.
Proof.
  revert Hraise. unfold initialize. run_monad. Opaque close.
  repeat (match goal with
          | |- context [close ?s ?w0] =>
              rewrite (close_on_obliging_engine s w0 Hok)
          | |- context [truthy ?v] =>
              lazymatch v with
              | VNone => fail
              | _ => let E := fresh "Ht" in destruct (truthy v) eqn:E
              end
          | |- context [match engine ?e ?t ?c with _ => _ end] =>
              let E := fresh "He" in destruct (engine e t c) eqn:E
          end; cbn [fst snd env trace log with_trace with_log
                    page context browser playwright last_activity
                    set_page set_context set_browser set_playwright set_last_activity]);
    intros H; try discriminate;
    (split; [|split; [apply released_has_no_plan | reflexivity]]);
    clear H; intros made c rest v' rel Htr Heng Htv Hrel;
    rewrite (app_assoc (trace w) made) in Htr;
    (apply call_before_or_within in Htr as [(rest' & Htr & ->)|Hin];
     [ apply elem_of_app
     | apply release_plan_is_release in Hin;
       rewrite (release_of_release _ _ Hin) in Hrel; discriminate ]);
    rewrite <- !app_assoc in Htr; apply app_inv_head in Htr.
  all: cbn [app] in Htr.
  all: repeat (match goal with
            | H : _ = ?l ++ _ :: _ |- _ =>
                is_var l; destruct l; cbn [app] in H; simplify_eq
            end).
  all: cbn [release_of] in *; simplify_eq.
  all: normalize_lists; rewrite ?app_nil_r in *.
  all:  repeat match goal with
           | H1 : engine ?en ?t ?k = _, H2 : engine ?en ?t ?k = _ |- _ =>
               rewrite H1 in H2; simplify_eq
           end.
  all: try congruence.
  all: right.
  all: match goal with
       | |- PageClose _ ∈ release_plan ?s => apply (proj1 (release_plan_owes s))
       | |- ContextClose _ ∈ release_plan ?s =>
           apply (proj1 (proj2 (release_plan_owes s)))
       | |- BrowserClose _ ∈ release_plan ?s =>
           apply (proj1 (proj2 (proj2 (release_plan_owes s))))
       | |- PlaywrightStop _ ∈ release_plan ?s =>
           apply (proj2 (proj2 (proj2 (release_plan_owes s))))
       end; exact Htv.
Qed.
Transparent close.

Lemma initialize_returned
    (headless : bool) (user_agent : option string)
    (proxy : option (gmap string string)) (width height : Z)
    (self : BrowserSession) (w : World) (ok : bool) :
  outcome_of (initialize headless user_agent proxy width height self w) = Ret ok →
  ∃ pw b c p stealth w',
    initialize headless user_agent proxy width height self w
    = (Ret true,
       {| session_id := session_id self; browser := b; context := c; page := p;
          playwright := pw; network_interceptor := network_interceptor self;
          custom_headers := custom_headers self; created_at := created_at self;
          last_activity := clock_now w |}, w')
    ∧ ok = true
    ∧ (stealth = []
       ∨ stealth = [StealthPathReadText]
       ∨ ∃ js, stealth = [StealthPathReadText; ContextAddInitScript c js])
    ∧ trace w'
      = trace w
        ++ [PlaywrightStart;
            ChromiumLaunch pw
              {| lo_headless := headless; lo_args := launch_args;
                 lo_chromium_sandbox := false |};
            BrowserNewContext b
              {| co_viewport := (width, height); co_bypass_csp := true;
                 co_user_agent := if opt_str_truthy user_agent then user_agent else None;
                 co_proxy := if proxy_truthy proxy then proxy else None |};
            ContextAddInitScript c (VStr webdriver_patch_js);
            StealthPathExists]
        ++ stealth
        ++ [ContextNewPage c; StealthAsync p; PageEvaluate p webdriver_probe_js;
            PageOn p "request"; PageOn p "response"]
    ∧ engine (env w) (trace w) PlaywrightStart = CapOk pw
    ∧ engine (env w) (trace w ++ [PlaywrightStart])
        (ChromiumLaunch pw
           {| lo_headless := headless; lo_args := launch_args;
              lo_chromium_sandbox := false |})
      = CapOk b
    ∧ engine (env w)
        (trace w ++ [PlaywrightStart;
                     ChromiumLaunch pw
                       {| lo_headless := headless; lo_args := launch_args;
                          lo_chromium_sandbox := false |}])
        (BrowserNewContext b
           {| co_viewport := (width, height); co_bypass_csp := true;
              co_user_agent := if opt_str_truthy user_agent then user_agent else None;
              co_proxy := if proxy_truthy proxy then proxy else None |})
      = CapOk c
    ∧ engine (env w)
        (trace w
         ++ [PlaywrightStart;
             ChromiumLaunch pw
               {| lo_headless := headless; lo_args := launch_args;
                  lo_chromium_sandbox := false |};
             BrowserNewContext b
               {| co_viewport := (width, height); co_bypass_csp := true;
                  co_user_agent := if opt_str_truthy user_agent then user_agent else None;
                  co_proxy := if proxy_truthy proxy then proxy else None |};
             ContextAddInitScript c (VStr webdriver_patch_js);
             StealthPathExists]
         ++ stealth)
        (ContextNewPage c)
      = CapOk p.
Proof.
  unfold initialize, clock_now. run_monad. Opaque close.
  repeat (match goal with
          | |- context [truthy ?v] =>
              lazymatch v with
              | VNone => fail
              | _ => let E := fresh "Ht" in destruct (truthy v) eqn:E
              end
          | |- context [match engine ?e ?t ?c with _ => _ end] =>
              let E := fresh "He" in destruct (engine e t c) eqn:E
          | |- context [close ?s ?w0] =>
              let E := fresh "Hc" in
              pose proof (close_returns s w0) as E; unfold outcome_of in E;
              destruct (close s w0) as [[? ?] ?]; cbn [fst snd] in E; subst
          end; cbn [fst snd env trace log with_trace with_log clock_reads
                    page context browser playwright last_activity
                    set_page set_context set_browser set_playwright set_last_activity]);
    intros H; try discriminate; injection H as <-;
    normalize_lists;
    eexists _, _, _, _;
    first [ exists []; eexists; cbn [app]; split; [reflexivity|];
            split; [reflexivity|]; split; [by left|];
            split; [reflexivity|]; by repeat split
          | eexists [_]; eexists; cbn [app]; split; [reflexivity|];
            split; [reflexivity|]; split; [right; by left|];
            split; [reflexivity|]; by repeat split
          | eexists [_; _]; eexists; cbn [app]; split; [reflexivity|];
            split; [reflexivity|]; split; [right; right; by eexists|];
            split; [reflexivity|]; by repeat split ].
Qed.
Transparent close.

(** X17. A successful [initialize] returns [True] with the session
    holding the driver, browser, context and page the engine handed out
    in answer to the four calls that create them, [last_activity]
    refreshed, and its id, interceptor, custom headers and creation time
    as they were.  The calls it made are, in this order: start the
    driver, launch Chromium on that driver with the fixed argument list,
    open a context on that browser with the requested viewport (user
    agent and proxy only when given and non-empty), install the webdriver
    patch on the context, look for the stealth script (and at most read
    and install it), and only then create the page on the context, apply
    the stealth patch, probe it, and register the request and the
    response callback on it. *)
Theorem successful_initialize_call_order
    (headless : bool) (user_agent : option string)
    (proxy : option (gmap string string)) (width height : Z)
    (self : BrowserSession) (w : World) (ok : bool)
    (Hret : outcome_of (initialize headless user_agent proxy width height self w)
            = Ret ok) :
  let after := state_of (initialize headless user_agent proxy width height self w) in
  let launch_options :=
    {| lo_headless := headless; lo_args := launch_args;
       lo_chromium_sandbox := false |} in
  let context_options :=
    {| co_viewport := (width, height); co_bypass_csp := true;
       co_user_agent := if opt_str_truthy user_agent then user_agent else None;
       co_proxy := if proxy_truthy proxy then proxy else None |} in
  ok = true
  ∧ last_activity after = clock_now w
  ∧ ∃ stealth,
      (stealth = []
       ∨ stealth = [StealthPathReadText]
       ∨ ∃ js, stealth = [StealthPathReadText; ContextAddInitScript (context after) js])
      ∧ trace (world_of (initialize headless user_agent proxy width height self w))
        = trace w
          ++ [PlaywrightStart;
              ChromiumLaunch (playwright after) launch_options;
              BrowserNewContext (browser after) context_options;
              ContextAddInitScript (context after) (VStr webdriver_patch_js);
              StealthPathExists]
          ++ stealth
          ++ [ContextNewPage (context after);
              StealthAsync (page after);
              PageEvaluate (page after) webdriver_probe_js;
              PageOn (page after) "request";
              PageOn (page after) "response"]
      ∧ engine (env w) (trace w) PlaywrightStart = CapOk (playwright after)
      ∧ engine (env w) (trace w ++ [PlaywrightStart])
          (ChromiumLaunch (playwright after) launch_options)
        = CapOk (browser after)
      ∧ engine (env w)
          (trace w ++ [PlaywrightStart;
                       ChromiumLaunch (playwright after) launch_options])
          (BrowserNewContext (browser after) context_options)
        = CapOk (context after)
      ∧ engine (env w)
          (trace w
           ++ [PlaywrightStart;
               ChromiumLaunch (playwright after) launch_options;
               BrowserNewContext (browser after) context_options;
               ContextAddInitScript (context after) (VStr webdriver_patch_js);
               StealthPathExists]
           ++ stealth)
          (ContextNewPage (context after))
        = CapOk (page after)
      ∧ session_id after = session_id self
      ∧ network_interceptor after = network_interceptor self
      ∧ custom_headers after = custom_headers self
      ∧ created_at after = created_at self.
Proof.
  cbv zeta.
  destruct (initialize_returned headless user_agent proxy width height self w ok Hret)
    as (pw & b & c & p & stealth & w' & -> & -> & Hst & Htr & H1 & H2 & H3 & H4).
  unfold state_of, world_of. cbn [fst snd page context browser playwright
    last_activity session_id network_interceptor custom_headers created_at].
  split; [done|]. split; [done|]. exists stealth. by repeat split.
Qed.

Lemma failed_initialize_leaves_no_handle_witness :
  let w := sample_world launch_fails_engine 0 in
  let r := initialize true None None 1920 1080 fresh_session w in
  let launch :=
    ChromiumLaunch (VObj 1)
      {| lo_headless := true; lo_args := launch_args; lo_chromium_sandbox := false |} in
  outcome_of r = Raise (EngineError 2)
  ∧ trace (world_of r) = [PlaywrightStart; launch; PlaywrightStop (VObj 1)]
  ∧ PlaywrightStop (VObj 1) ∈ [launch; PlaywrightStop (VObj 1)]
  ∧ release_plan (state_of r) = [].
Proof.
  assert (releases_succeed (env (sample_world launch_fails_engine 0))) as Hok.
  { intros hist c Hc. destruct c; try discriminate; eexists; reflexivity. }
  assert (outcome_of (initialize true None None 1920 1080 fresh_session
                        (sample_world launch_fails_engine 0))
          = Raise (EngineError 2)) as Hr by (vm_compute; reflexivity).
  split; [exact Hr|].
  split; [vm_compute; reflexivity|].
  destruct (failed_initialize_leaves_no_handle true None None 1920 1080 fresh_session
              (sample_world launch_fails_engine 0) (EngineError 2) Hok Hr)
    as (Hrel & Hplan & _).
  split; [|exact Hplan].
  exact (Hrel [] PlaywrightStart _ (VObj 1) (PlaywrightStop (VObj 1))
           eq_refl eq_refl eq_refl eq_refl).
Defined.

Lemma successful_initialize_call_order_witness :
  let w := sample_world obliging_engine 5 in
  let r := initialize true None None 1920 1080 fresh_session w in
  outcome_of r = Ret true
  ∧ last_activity (state_of r) = clock_now w
  ∧ engine (env w) (trace w) PlaywrightStart = CapOk (playwright (state_of r)).
Proof.
  assert (outcome_of (initialize true None None 1920 1080 fresh_session
                        (sample_world obliging_engine 5)) = Ret true) as Hr
    by (vm_compute; reflexivity).
  split; [exact Hr|].
  destruct (successful_initialize_call_order true None None 1920 1080 fresh_session
              (sample_world obliging_engine 5) true Hr)
    as (_ & Hact & stealth & _ & _ & Hpw & _).
  split; [exact Hact | exact Hpw].
Defined.

(** ** Method bodies that cannot block *)

Lemma never_blocks_ret {S A} (a : A) : never_blocks (mret a : M S A).
Proof. by intros s w. Qed.

Lemma never_blocks_bind {S A B} (m : M S A) (f : A → M S B) :
  never_blocks m → (∀ a, never_blocks (f a)) → never_blocks (m ≫= f).
Proof.
  intros Hm Hf s w. specialize (Hm s w). unfold mbind, M_bind, outcome_of in *.
  destruct (m s w) as [[[a|e|] s'] w']; cbn in *; [apply Hf|done|done].
Qed.

Lemma never_blocks_try {S A} (m : M S A) (h : exn → M S A) :
  never_blocks m → (∀ e, never_blocks (h e)) → never_blocks (try_except m h).
Proof.
  intros Hm Hh s w. specialize (Hm s w). unfold try_except, outcome_of in *.
  destruct (m s w) as [[[a|e|] s'] w']; cbn in *; [done|apply Hh|done].
Qed.

Lemma never_blocks_call {S} (c : CapCall) : never_blocks (call c : M S value).
Proof. intros s w. unfold call, outcome_of. by destruct (engine _ _ _). Qed.

Lemma never_blocks_logger {S} (lvl : Level) (line : nat) (exc : option exn) :
  never_blocks (logger lvl line exc : M S unit).
Proof. by intros s w. Qed.

Lemma never_blocks_get {S} : never_blocks (get : M S S).
Proof. by intros s w. Qed.

Lemma never_blocks_modify {S} (f : S → S) : never_blocks (modify f).
Proof. by intros s w. Qed.

Lemma never_blocks_raise {S A} (e : exn) : never_blocks (raise e : M S A).
Proof. by intros s w. Qed.

Lemma never_blocks_touch : never_blocks touch.
Proof. by intros s w. Qed.

Lemma never_blocks_close : never_blocks close.
Proof. intros s w. by rewrite close_returns. Qed.

Lemma never_blocks_if {S A} (b : bool) (m1 m2 : M S A) :
  never_blocks m1 → never_blocks m2 → never_blocks (if b then m1 else m2).
Proof. by destruct b. Qed.

Lemma initialize_never_blocks (headless : bool) (user_agent : option string)
    (proxy : option (gmap string string)) (width height : Z) :
  never_blocks (initialize headless user_agent proxy width height).
Proof.
  unfold initialize.
  repeat first
    [ apply never_blocks_touch
    | apply never_blocks_close
    | apply never_blocks_try; [|intros ?]
    | apply never_blocks_bind; [|intros ?]
    | apply never_blocks_if
    | apply never_blocks_call
    | apply never_blocks_logger
    | apply never_blocks_get
    | apply never_blocks_modify
    | apply never_blocks_raise
    | apply never_blocks_touch
    | apply never_blocks_close
    | apply never_blocks_ret
    | progress cbv zeta ].
Qed.

(** ** BrowserPool: the sweep, registration and shutdown *)

Lemma close_session_free_state (sid : string) (self : BrowserPool) (w : World) :
  _lock self = false →
  state_of (close_session sid self w) = set_sessions (delete sid (sessions self)) self
  ∧ ∃ found, outcome_of (close_session sid self w) = Ret found.
Proof.
  intros Hl. rewrite close_session_free by done.
  destruct (sessions self !! sid) eqn:E; cbn.
  - split; [done | by eexists].
  - split; [|by eexists]. rewrite delete_id by done. by destruct self.
Qed.

Lemma for_each_cons {S X} (x : X) (xs : list X) (body : X → M S unit) (s : S) (w : World) :
  for_each (x :: xs) body s w
  = match body x s w with
    | (Ret _, s', w') => for_each xs body s' w'
    | (Raise e, s', w') => (Raise e, s', w')
    | (Block, s', w') => (Block, s', w')
    end.
Proof. reflexivity. Qed.

Lemma sweep_step (sid : string) (self : BrowserPool) (w : World) :
  _lock self = false →
  ∃ w', (close_session sid;; logger INFO 443 None) self w
        = (Ret tt, set_sessions (delete sid (sessions self)) self, w').
Proof.
  intros Hl. destruct (close_session_free_state sid self w Hl) as (Hs & found & Ho).
  unfold outcome_of, state_of in Hs, Ho. unfold mbind, M_bind.
  destruct (close_session sid self w) as [[r p1] w1]. cbn in Hs, Ho. subst r p1.
  by eexists.
Qed.

Lemma sweep_loop (ids : list string) (self : BrowserPool) (w : World) :
  _lock self = false →
  ∃ w', for_each ids (fun sid => close_session sid;; logger INFO 443 None) self w
        = (Ret tt, set_sessions (foldr delete (sessions self) ids) self, w').
Proof.
  revert self w. induction ids as [|sid ids IH]; intros self w Hl.
  - exists w. cbn. by destruct self.
  - rewrite for_each_cons. destruct (sweep_step sid self w Hl) as [w1 ->].
    destruct (IH (set_sessions (delete sid (sessions self)) self) w1 Hl) as [w2 ->].
    exists w2. destruct self as [m mx tm lk]. unfold set_sessions. cbn.
    do 3 f_equal.
    clear. induction ids as [|k ids IH]; [done|].
    cbn. rewrite IH. apply delete_delete.
Qed.

Lemma elem_of_expired_ids (now : Z) (self : BrowserPool) (sid : string) :
  sid ∈ expired_ids now self
  ↔ ∃ session, sessions self !! sid = Some session
               ∧ is_expired now (session_timeout self) session = true.
Proof.
  unfold expired_ids. rewrite list_elem_of_fmap. split.
  - intros ([k s] & -> & Hin). apply list_elem_of_In, filter_In in Hin as [Hin He].
    apply list_elem_of_In, elem_of_map_to_list in Hin. by exists s.
  - intros (s & Hs & He). exists (sid, s). split; [done|].
    apply list_elem_of_In, filter_In. split; [|done].
    by apply list_elem_of_In, elem_of_map_to_list.
Qed.

Lemma cleanup_is_a_loop (self : BrowserPool) (w : World) :
  _cleanup_expired_sessions self w
  = for_each (expired_ids (time_source (env w) (clock_reads w)) self)
      (fun sid => close_session sid;; logger INFO 443 None)
      self (after_clock_read w).
Proof. reflexivity. Qed.

(** X18. Run with the pool's lock free, [_cleanup_expired_sessions]
    returns and evicts exactly the expired sessions: afterwards an id is
    registered if and only if it was registered with a session idle for
    at most [session_timeout] at the clock reading of the sweep, and such
    a session is unchanged.  A session idle for exactly the timeout
    stays.  Lock and configuration are as before. *)
Theorem sweep_evicts_exactly_the_expired (self : BrowserPool) (w : World)
    (Hfree : _lock self = false) :
  let r := _cleanup_expired_sessions self w in
  outcome_of r = Ret tt
  ∧ (∀ sid,
       get_session sid (state_of r)
       = match get_session sid self with
         | Some session =>
             if (clock_now w - last_activity session >? session_timeout self)%Z
             then None else Some session
         | None => None
         end)
  ∧ _lock (state_of r) = false
  ∧ max_sessions (state_of r) = max_sessions self
  ∧ session_timeout (state_of r) = session_timeout self.
Proof.
  cbv zeta. rewrite cleanup_is_a_loop.
  destruct (sweep_loop (expired_ids (time_source (env w) (clock_reads w)) self)
              self (after_clock_read w) Hfree) as [w' ->].
  unfold outcome_of, state_of.
  cbn [fst snd set_sessions _lock max_sessions session_timeout sessions].
  split; [done|]. split; [|by repeat split].
  intros sid. unfold get_session, clock_now, set_sessions.
  cbn [sessions].
  destruct (decide (sid ∈ expired_ids (time_source (env w) (clock_reads w)) self))
    as [Hin|Hout].
  - rewrite lookup_foldr_delete by done.
    apply elem_of_expired_ids in Hin as (s & -> & He).
    unfold is_expired in He. by rewrite He.
  - rewrite lookup_foldr_delete_not_elem_of by done.
    destruct (sessions self !! sid) as [s|] eqn:Hs; [|done].
    destruct (is_expired (time_source (env w) (clock_reads w))
                (session_timeout self) s) eqn:He;
      unfold is_expired in He; rewrite He; [|done].
    exfalso. apply Hout, elem_of_expired_ids. exists s. by unfold is_expired.
Qed.

Lemma sweep_evicts_exactly_the_expired_witness :
  let w := sample_world obliging_engine 3600 in
  let late := sample_world obliging_engine 3601 in
  _lock full_pool = false
  ∧ get_session "s" (state_of (_cleanup_expired_sessions full_pool w)) = Some live_session
  ∧ get_session "s" (state_of (_cleanup_expired_sessions full_pool late)) = None.
Proof.
  split; [reflexivity|].
  destruct (sweep_evicts_exactly_the_expired full_pool
              (sample_world obliging_engine 3600) eq_refl) as (_ & H1 & _).
  destruct (sweep_evicts_exactly_the_expired full_pool
              (sample_world obliging_engine 3601) eq_refl) as (_ & H2 & _).
  cbv zeta. rewrite H1, H2. split; by vm_compute.
Defined.

Lemma no_expired_ids (now : Z) (self : BrowserPool) :
  ¬ some_session_expired now self → expired_ids now self = [].
Proof.
  intros Hnone. destruct (expired_ids now self) as [|sid ids] eqn:E; [done|].
  exfalso. apply Hnone.
  assert (sid ∈ expired_ids now self) as Hin by (rewrite E; left).
  apply elem_of_expired_ids in Hin as (s & Hs & He). by exists sid, s.
Qed.

Lemma some_expired_ids (now : Z) (self : BrowserPool) :
  expired_ids now self ≠ [] → some_session_expired now self.
Proof.
  intros Hne. destruct (expired_ids now self) as [|sid ids] eqn:E; [done|].
  assert (sid ∈ expired_ids now self) as Hin by (rewrite E; left).
  apply elem_of_expired_ids in Hin as (s & Hs & He). by exists sid, s.
Qed.

(** X19. With the lock free, no session expired and room in the pool,
    [create_session] does what [initialize] does on the new session.  If
    [initialize] returns, the call returns the new id, the id is
    registered with the initialized session, every other id keeps its
    session and the lock is free again.  If [initialize] raises, the call
    raises the same exception and the pool is exactly as it was: no id
    is registered. *)
Theorem create_session_registers_only_on_success
    (headless : bool) (user_agent : option string)
    (proxy : option (gmap string string)) (width height : Z)
    (self : BrowserPool) (w : World)
    (Hfree : _lock self = false)
    (Hnone : ¬ some_session_expired (clock_now w) self)
    (Hroom : (Z.of_nat (size (sessions self)) < max_sessions self)%Z) :
  let attempt := initialize headless user_agent proxy width height
                   (new_session w) (world_at_initialize w) in
  let r := create_session headless user_agent proxy width height self w in
  let sid := uuid_source (env w) (uuid_draws w) in
  (∀ ok, outcome_of attempt = Ret ok →
     outcome_of r = Ret sid
     ∧ get_session sid (state_of r) = Some (state_of attempt)
     ∧ (∀ other, other ≠ sid → get_session other (state_of r) = get_session other self)
     ∧ _lock (state_of r) = false)
  ∧ (∀ e, outcome_of attempt = Raise e →
       outcome_of r = Raise e ∧ state_of r = self).
Proof.
  cbv zeta. rewrite create_session_free by done.
  unfold clock_now in Hnone. rewrite (no_expired_ids _ _ Hnone).
  rewrite Z.geb_leb.
  destruct (Z.leb_spec (max_sessions self) (Z.of_nat (size (sessions self))));
    [lia|].
  unfold outcome_of, state_of, get_session.
  destruct (initialize _ _ _ _ _ _ _) as [[[ok|e|] session] w1]; cbn [fst snd].
  - split; [|by intros e].
    intros ok' _. cbn. split; [done|]. split; [apply lookup_insert_eq|].
    split; [|done]. intros other Hother. by apply lookup_insert_ne.
  - split; [by intros ok|]. intros e' [= <-]. done.
  - split; [by intros ok | by intros e].
Qed.

Lemma create_session_registers_only_on_success_witness :
  let w := sample_world launch_fails_engine 0 in
  let r := create_session true None None 1920 1080 (BrowserPool_init 2 3600) w in
  outcome_of r = Raise (EngineError 2) ∧ state_of r = BrowserPool_init 2 3600.
Proof.
  apply (create_session_registers_only_on_success true None None 1920 1080
           (BrowserPool_init 2 3600) (sample_world launch_fails_engine 0)).
  - reflexivity.
  - intros (sid & s & Hs & _). cbn in Hs. by rewrite lookup_empty in Hs.
  - by vm_compute.
  - by vm_compute.
Defined.

(** X20. Called with the pool's lock free, [create_session] takes the
    lock and then fails to resume exactly when some registered session
    is expired at the clock reading of the sweep: the sweep's
    [close_session] waits for the lock that [create_session] itself
    holds.  In every other case it returns or raises. *)
Theorem create_session_blocks_exactly_when
    (headless : bool) (user_agent : option string)
    (proxy : option (gmap string string)) (width height : Z)
    (self : BrowserPool) (w : World)
    (Hfree : _lock self = false) :
  outcome_of (create_session headless user_agent proxy width height self w) = Block
  ↔ some_session_expired (clock_now w) self.
Proof.
  rewrite create_session_free by done. unfold clock_now.
  destruct (expired_ids (time_source (env w) (clock_reads w)) self) as [|sid ids] eqn:E.
  - split.
    + intros H. exfalso. revert H.
      destruct (_ >=? _)%Z; [done|].
      pose proof (initialize_never_blocks headless user_agent proxy width height
                    (new_session w) (world_at_initialize w)) as Hnb.
      unfold outcome_of in *.
      by destruct (initialize _ _ _ _ _ _ _) as [[[ok|e|] session] w1].
    + intros (k & s & Hs & He).
      assert (k ∈ expired_ids (time_source (env w) (clock_reads w)) self) as Hin
        by (apply elem_of_expired_ids; by exists s).
      rewrite E in Hin. by apply elem_of_nil in Hin.
  - split; [|done]. intros _. apply some_expired_ids. by rewrite E.
Qed.

Lemma create_session_blocks_exactly_when_witness :
  let w := sample_world obliging_engine 3601 in
  _lock full_pool = false
  ∧ some_session_expired (clock_now w) full_pool
  ∧ outcome_of (create_session true None None 1920 1080 full_pool w) = Block.
Proof.
  assert (some_session_expired (clock_now (sample_world obliging_engine 3601))
            full_pool) as Hexp.
  { exists "s", live_session. split; by vm_compute. }
  split; [reflexivity|]. split; [exact Hexp|].
  exact (proj2 (create_session_blocks_exactly_when true None None 1920 1080
                  full_pool (sample_world obliging_engine 3601) eq_refl) Hexp).
Defined.

(** X21. Called with the lock free, [close_session] returns, without
    raising, and touches only the id it is given: that id is no longer
    registered, every other id keeps its session, the capacity and the
    timeout are unchanged and the lock is free again.  It answers [True]
    exactly when the id was registered. *)
Theorem close_session_touches_only_its_id (sid : string) (self : BrowserPool) (w : World)
    (Hfree : _lock self = false) :
  let r := close_session sid self w in
  outcome_of r = Ret (bool_decide (is_Some (get_session sid self)))
  ∧ get_session sid (state_of r) = None
  ∧ (∀ other, other ≠ sid → get_session other (state_of r) = get_session other self)
  ∧ _lock (state_of r) = false
  ∧ max_sessions (state_of r) = max_sessions self
  ∧ session_timeout (state_of r) = session_timeout self.
Proof.
  cbv zeta. rewrite close_session_free by done. unfold get_session.
  destruct (sessions self !! sid) eqn:E; cbn.
  - split; [done|]. split; [apply lookup_delete_eq|].
    split; [|done]. intros other Hother. by apply lookup_delete_ne.
  - by repeat split.
Qed.

Lemma close_session_touches_only_its_id_witness :
  let w := sample_world obliging_engine 0 in
  _lock full_pool = false
  ∧ outcome_of (close_session "t" full_pool w) = Ret false
  ∧ get_session "s" (state_of (close_session "t" full_pool w)) = Some live_session.
Proof.
  destruct (close_session_touches_only_its_id "t" full_pool
              (sample_world obliging_engine 0) eq_refl) as (H1 & _ & H2 & _).
  split; [reflexivity|]. split; [exact H1|].
  cbv zeta. rewrite (H2 "s") by discriminate. reflexivity.
Defined.




(** X23. Closing a session makes room.  In a pool within its capacity
    with the lock free, after [close_session] on a registered id a
    [create_session] made while no remaining session is expired passes
    the capacity check: it returns the new id if [initialize] returns
    and raises what [initialize] raises. *)
Theorem closing_a_session_makes_room
    (headless : bool) (user_agent : option string)
    (proxy : option (gmap string string)) (width height : Z)
    (self : BrowserPool) (w1 w2 : World) (sid : string) (session : BrowserSession)
    (Hfree : _lock self = false)
    (Hbounded : pool_bounded self)
    (Hregistered : sessions self !! sid = Some session)
    (Hnone : ¬ some_session_expired (clock_now w2) (state_of (close_session sid self w1))) :
  outcome_of (create_session headless user_agent proxy width height
                (state_of (close_session sid self w1)) w2)
  = match outcome_of (initialize headless user_agent proxy width height
                        (new_session w2) (world_at_initialize w2)) with
    | Ret _ => Ret (uuid_source (env w2) (uuid_draws w2))
    | Raise e => Raise e
    | Block => Block
    end.
Proof.
  revert Hnone. rewrite close_session_free by done. rewrite Hregistered.
  unfold state_of. cbn [fst snd]. intros Hnone.
  rewrite create_session_free by done.
  unfold clock_now in Hnone. rewrite (no_expired_ids _ _ Hnone).
  assert (size (delete sid (sessions self)) = pred (size (sessions self))) as Hsize
    by (apply map_size_delete_Some; by eexists).
  assert (size (sessions self) ≠ 0) as Hpos
    by (apply map_size_ne_0_lookup_2 with sid; by eexists).
  unfold pool_bounded in Hbounded. cbn [sessions set_sessions max_sessions].
  rewrite Z.geb_leb, Hsize.
  destruct (Z.leb_spec (max_sessions self) (Z.of_nat (pred (size (sessions self)))));
    [lia|].
  unfold outcome_of.
  by destruct (initialize _ _ _ _ _ _ _) as [[[ok|e|] s'] w'].
Qed.

Lemma closing_a_session_makes_room_witness :
  let w := sample_world obliging_engine 0 in
  pool_bounded full_pool
  ∧ outcome_of (create_session true None None 1920 1080
                  (state_of (close_session "s" full_pool w)) w)
    = Ret "a".
Proof.
  assert (pool_bounded full_pool) as Hb by (unfold pool_bounded; by vm_compute).
  split; [exact Hb|]. cbv zeta.
  rewrite (closing_a_session_makes_room true None None 1920 1080 full_pool
             (sample_world obliging_engine 0) (sample_world obliging_engine 0)
             "s" live_session eq_refl Hb).
  - by vm_compute.
  - by vm_compute.
  - intros (k & s & Hs & _). revert Hs. vm_compute. destruct k; discriminate.
Defined.

(** ** The adapters' views of the recorded traffic *)

(** X24. Every record the HTTP endpoint returns is complete: for the
    records of [get_requests], converted in order, the status code is
    present and is the recorded one, the response headers and the body
    are the recorded ones, and the request side (id, URL, method,
    headers, post data and timestamp) is copied unchanged; the handler's
    fallbacks for a missing response are never used.  As many records
    are returned as are visible. *)
Theorem http_network_records_are_complete (self : NetworkInterceptor) :
  length (http_network_request <$> get_requests self) = length (get_requests self)
  ∧ Forall2
      (fun req out =>
         ∃ d, req_response req = Some d
              ∧ nr_status_code out = Some (resp_status_code d)
              ∧ nr_response_body out = resp_body d
              ∧ nr_response_headers out = resp_headers d
              ∧ nr_request_id out = req_request_id req
              ∧ nr_url out = req_url req
              ∧ nr_method out = req_method req
              ∧ nr_headers out = req_headers req
              ∧ nr_post_data out = req_post_data req
              ∧ nr_timestamp out = req_timestamp req)
      (get_requests self) (http_network_request <$> get_requests self).
Proof.
  split; [by rewrite length_fmap|].
  pose proof (filter_keeps_populated (requests self)) as Hpop.
  unfold get_requests. induction Hpop as [|req l Hreq Hl IH]; cbn; constructor; [|done].
  unfold http_network_request.
  destruct (req_response req) as [d|]; [|done]. by exists d.
Qed.

(** X25. The gRPC view is the HTTP view with the gaps filled in: for
    every record the two conversions agree on id, URL, method, headers,
    response headers and timestamp, and the gRPC message carries the
    empty string for a missing post data or body and 0 for a missing
    status.  So a response whose body could not be fetched and one whose
    body is empty look the same over gRPC. *)
Theorem grpc_view_fills_the_gaps_of_http_view (req : InterceptedRequest) :
  let h := http_network_request req in
  let g := grpc_network_request req in
  pb_request_id g = nr_request_id h
  ∧ pb_url g = nr_url h
  ∧ pb_method g = nr_method h
  ∧ pb_headers g = nr_headers h
  ∧ pb_response_headers g = nr_response_headers h
  ∧ pb_timestamp g = nr_timestamp h
  ∧ pb_post_data g = default "" (nr_post_data h)
  ∧ pb_status_code g = default 0%Z (nr_status_code h)
  ∧ pb_response_body g = default "" (nr_response_body h)
  ∧ (∀ d, grpc_network_request
            (set_response (Some {| resp_status_code := resp_status_code d;
                                   resp_headers := resp_headers d;
                                   resp_body := None |}) req)
          = grpc_network_request
              (set_response (Some {| resp_status_code := resp_status_code d;
                                     resp_headers := resp_headers d;
                                     resp_body := Some "" |}) req)).
Proof.
  assert (∀ x, or_empty x = default "" x) as Hor.
  { intros [s|]; [|done]. unfold or_empty, opt_str_truthy, str_truthy. cbn.
    destruct (String.eqb_spec s ""); by subst. }
  cbv zeta. unfold grpc_network_request, http_network_request. cbn.
  rewrite !Hor. destruct (req_response req) as [d|]; cbn; rewrite ?Hor; by repeat split.
Qed.

(** X26. The HTTP cookie conversions round-trip up to falsy fields:
    turning a [Cookie] into Playwright's format and back gives the
    cookie again when none of its optional fields is an empty string or
    a zero, and in general gives the cookie with exactly those fields
    dropped; name, value and the two flags always survive (a flag set
    to [False] included). *)
Theorem cookie_round_trip_drops_falsy_fields (cookie : Cookie) :
  let back := cookie_of_playwright (cookie_to_playwright cookie) in
  ck_name back = ck_name cookie
  ∧ ck_value back = ck_value cookie
  ∧ ck_http_only back = ck_http_only cookie
  ∧ ck_secure back = ck_secure cookie
  ∧ ck_domain back = keep_str (ck_domain cookie)
  ∧ ck_path back = keep_str (ck_path cookie)
  ∧ ck_expires back = keep_num (ck_expires cookie)
  ∧ ck_same_site back = keep_str (ck_same_site cookie)
  ∧ (cookie_has_no_falsy_field cookie ↔ back = cookie)
  ∧ cookie_of_playwright (cookie_to_playwright back) = back.
Proof.
  assert (∀ x, keep_str x = x ↔ x ≠ Some "") as Hs.
  { intros [s|]; [|done]. unfold keep_str, opt_str_truthy, str_truthy.
    destruct (String.eqb_spec s ""); cbn; split; congruence. }
  assert (∀ x, keep_num x = x ↔ x ≠ Some 0%Z) as Hn.
  { intros [z|]; [|done]. cbn. destruct (Z.eqb_spec z 0); split; congruence. }
  assert (∀ x, keep_str (keep_str x) = keep_str x) as Hss.
  { intros [s|]; [|done]. unfold keep_str, opt_str_truthy.
    destruct (str_truthy s) eqn:E; cbn; by rewrite ?E. }
  assert (∀ x, keep_num (keep_num x) = keep_num x) as Hnn.
  { intros [z|]; [|done]. cbn. destruct (Z.eqb z 0) eqn:E; cbn; by rewrite ?E. }
  cbv zeta. unfold cookie_of_playwright, cookie_to_playwright. cbn.
  do 8 (split; [done|]). split.
  - unfold cookie_has_no_falsy_field.
    rewrite <- !Hs, <- Hn. destruct cookie; cbn. split.
    + intros (-> & -> & -> & ->). done.
    + intros [= -> -> -> ->]. done.
  - by rewrite !Hss, Hnn.
Qed.
